(** * Job lifecycle and credit ledger of the image-processing API

    A shallow embedding of the credit service, the job store, the cancel
    endpoint and the image worker, together with the properties of the
    job-lifecycle / credit-ledger specification stated over them.

    Conventions of the embedding

    - The SQLAlchemy session is an explicit [Database] value threaded
      through every operation: the [users] and [jobs] tables are finite
      maps keyed by primary key, the [transactions] table is the list of
      rows in insertion order.
    - [datetime.utcnow()] and [uuid.uuid4()] are read from a [call_env]
      handed to the operation.
    - Python [int] is [Z]; Python truthiness tests are written out
      ([if error_message:] is "present and non-empty").
    - A [try ... except Exception] whose body can raise on the modelled
      inputs is an explicit [option] inside the function; storage
      failures of the session itself are not modelled. *)

From Stdlib Require Import ZArith QArith Lia.
From stdpp Require Import gmap strings list fin_maps pretty sorting.

Local Open Scope Z_scope.

(** ** Python values found in a request's [parameters] dictionary *)

Module Py.

Inductive value :=
| VNone
| VBool (b : bool)
| VInt (n : Z)
| VFloat (q : Q)
| VStr (s : string).

(** [x > bound] for an integer literal [bound]: numbers compare (a
    [bool] as 0 or 1), [None] and strings raise [TypeError] (the [None]
    result). *)
Definition gt_int (x : value) (bound : Z) : option bool :=
  match x with
  | VBool b => Some (bound <? (if b then 1 else 0))
  | VInt n => Some (bound <? n)
  | VFloat q => Some (negb (Qle_bool q (inject_Z bound)))
  | VNone | VStr _ => None
  end.

Section Format.
(** [repr] of a binary64 is left abstract. *)
Variable float_str : Q -> string.

(** [f"{x}"] *)
Definition str (x : value) : string :=
  match x with
  | VNone => "None"
  | VBool b => if b then "True" else "False"
  | VInt n => pretty n
  | VFloat q => float_str q
  | VStr s => s
  end.
End Format.

(** [d.get(key, default)] *)
Definition get (d : gmap string value) (key : string) (default : value) : value :=
  match d !! key with
  | Some v => v
  | None => default
  end.

(** [int(x * 1.5)] and [int(x * 1.2)] for an integer [x]: the product
    is taken in binary64 and truncated toward zero.  For the magnitudes
    a price table holds (below 2^50) the truncation of the binary64
    product is the truncation of the exact rational product, which is
    what is written here. *)
Definition int_times_1_5 (x : Z) : Z := Z.quot (x * 3) 2.
Definition int_times_1_2 (x : Z) : Z := Z.quot (x * 6) 5.

End Py.

(** ** Settings (app/core/config.py) *)

Module Settings.

(** [credit_costs], the default price table. *)
Definition credit_costs : gmap string Z :=
  list_to_map
    [ ("enhance_low", 1); ("enhance_medium", 2); ("enhance_high", 3);
      ("upscale_2x", 2); ("upscale_4x", 4) ].

End Settings.

(** ** Rows of the three tables

    The ORM classes are declared outside the sources at hand; the records
    carry the columns that the services, the endpoint and the worker read
    or write. *)

Record User := mkUser {
  credits_balance : Z;
  total_credits_purchased : Z;
  total_credits_used : Z;
  user_updated_at : Z
}.

Record CreditTransaction := mkTx {
  tx_id : string;
  tx_user_id : string;
  amount : Z;
  transaction_type : string;
  description : string;
  balance_before : Z;
  balance_after : Z;
  payment_id : option string;
  payment_method : option string;
  payment_status : option string
}.

Record ProcessingJob := mkJob {
  job_user_id : string;
  operation : string;
  status : string;
  progress : Z;
  credits_used : Z;
  callback_url : option string;
  error_message : option string;
  output_images : list string;
  processing_time_seconds : option Q;
  job_updated_at : Z;
  started_at : option Z;
  completed_at : option Z
}.

Record Database := mkDb {
  users : gmap string User;
  transactions : list CreditTransaction;
  jobs : gmap string ProcessingJob
}.

(** What one call draws from the outside world. *)
Record call_env := mkEnv {
  utcnow : Z;
  uuid4 : string
}.

(** ** Credit service (app/services/credit_service.py) *)

Module CreditService.

Section Cost.
Variable float_str : Q -> string.
(** [self.credit_costs] *)
Variable credit_costs : gmap string Z.

(** [self.credit_costs.get(key, 2)] *)
Definition cost_of (key : string) : Z :=
  match credit_costs !! key with
  | Some c => c
  | None => 2
  end.

(** The body of the [try] block of [calculate_cost]; [None] when a
    comparison raises. *)
Definition calculate_cost_body
    (operation : string) (parameters : gmap string Py.value) (image_count : Z)
    : option Z :=
  let base_cost := 1 in
  let base_cost :=
    if String.eqb operation "enhance" then
      let quality := Py.get parameters "quality" (Py.VStr "medium") in
      cost_of ("enhance_" +:+ Py.str float_str quality)
    else if String.eqb operation "upscale" then
      let upscale_factor := Py.get parameters "upscale_factor" (Py.VInt 2) in
      cost_of ("upscale_" +:+ Py.str float_str upscale_factor +:+ "x")
    else base_cost in
  match Py.gt_int (Py.get parameters "steps" (Py.VInt 20)) 50 with
  | None => None
  | Some high_steps =>
    let base_cost :=
      if high_steps then Py.int_times_1_5 base_cost else base_cost in
    match Py.gt_int (Py.get parameters "guidance_scale" (Py.VFloat (15 # 2))) 15 with
    | None => None
    | Some high_guidance =>
      let base_cost :=
        if high_guidance then Py.int_times_1_2 base_cost else base_cost in
      let total_cost := base_cost * image_count in
      Some total_cost
    end
  end.

Definition calculate_cost
    (operation : string) (parameters : gmap string Py.value) (image_count : Z) : Z :=
  match calculate_cost_body operation parameters image_count with
  | Some total_cost => total_cost
  | None => 2 * image_count
  end.
End Cost.

(** [check_and_reserve_credits]: the session after the call and the
    returned flag. *)
Definition check_and_reserve_credits
    (env : call_env) (db : Database) (user_id : string) (required_credits : Z)
    : Database * bool :=
  match users db !! user_id with
  | None => (db, false)
  | Some user =>
    if credits_balance user <? required_credits then (db, false)
    else
      let balance_before := credits_balance user in
      let user' :=
        {| credits_balance := credits_balance user - required_credits;
           total_credits_purchased := total_credits_purchased user;
           total_credits_used := total_credits_used user + required_credits;
           user_updated_at := utcnow env |} in
      let transaction :=
        {| tx_id := uuid4 env;
           tx_user_id := user_id;
           amount := - required_credits;
           transaction_type := "usage";
           description := "Credits reserved for image processing";
           balance_before := balance_before;
           balance_after := credits_balance user';
           payment_id := None;
           payment_method := None;
           payment_status := None |} in
      ({| users := <[user_id := user']> (users db);
          transactions := transactions db ++ [transaction];
          jobs := jobs db |}, true)
  end.

Definition refund_credits
    (env : call_env) (db : Database) (user_id : string) (amount : Z) (reason : string)
    : Database * bool :=
  match users db !! user_id with
  | None => (db, false)
  | Some user =>
    let balance_before := credits_balance user in
    let user' :=
      {| credits_balance := credits_balance user + amount;
         total_credits_purchased := total_credits_purchased user;
         total_credits_used := total_credits_used user - amount;
         user_updated_at := utcnow env |} in
    let transaction :=
      {| tx_id := uuid4 env;
         tx_user_id := user_id;
         amount := amount;
         transaction_type := "refund";
         description := reason;
         balance_before := balance_before;
         balance_after := credits_balance user';
         payment_id := None;
         payment_method := None;
         payment_status := None |} in
    ({| users := <[user_id := user']> (users db);
        transactions := transactions db ++ [transaction];
        jobs := jobs db |}, true)
  end.

(** [payment_method or 'unknown'] *)
Definition or_unknown (payment_method : option string) : string :=
  match payment_method with
  | Some m => if String.eqb m "" then "unknown" else m
  | None => "unknown"
  end.

Definition add_credits
    (env : call_env) (db : Database) (user_id : string) (amount : Z)
    (payment_id payment_method : option string)
    : Database * bool :=
  match users db !! user_id with
  | None => (db, false)
  | Some user =>
    let balance_before := credits_balance user in
    let user' :=
      {| credits_balance := credits_balance user + amount;
         total_credits_purchased := total_credits_purchased user + amount;
         total_credits_used := total_credits_used user;
         user_updated_at := utcnow env |} in
    let transaction :=
      {| tx_id := uuid4 env;
         tx_user_id := user_id;
         amount := amount;
         transaction_type := "purchase";
         description := "Credits purchased via " +:+ or_unknown payment_method;
         balance_before := balance_before;
         balance_after := credits_balance user';
         payment_id := payment_id;
         payment_method := payment_method;
         payment_status := Some "completed" |} in
    ({| users := <[user_id := user']> (users db);
        transactions := transactions db ++ [transaction];
        jobs := jobs db |}, true)
  end.

(** [get_user_credits] *)
Definition get_user_credits (db : Database) (user_id : string) : option Z :=
  credits_balance <$> users db !! user_id.

(** [check_user_credits] *)
Definition check_user_credits
    (db : Database) (user_id : string) (required_credits : Z) : bool :=
  match users db !! user_id with
  | None => false
  | Some user => credits_balance user >=? required_credits
  end.

Section History.
(** The [created_at] stamp of a ledger row, a column of the table that is
    declared outside the sources at hand. *)
Variable created_at : CreditTransaction -> Z.

(** [created_at.desc()]: the row [t] may come before the row [t']. *)
Definition newer_first (t t' : CreditTransaction) : Prop :=
  created_at t' <= created_at t.

#[global] Instance newer_first_dec : RelDecision newer_first :=
  fun t t' => decide (created_at t' <= created_at t).

(** [get_user_transactions], for a limit and an offset that are not
    negative: the rows of the user, ordered by [created_at] descending,
    after skipping [offset] of them and keeping at most [limit]. *)
Definition get_user_transactions
    (db : Database) (user_id : string) (limit offset : nat) : list CreditTransaction :=
  take limit
    (drop offset
       (merge_sort newer_first
          (filter (fun t => tx_user_id t = user_id) (transactions db)))).
End History.

End CreditService.

(** ** Task broker

    What the services hand to Celery: [process_images_task.delay],
    [send_webhook_notification.delay] and [cleanup_job_task.apply_async]
    append a message to the corresponding queue. *)

Record request_data := mkRequest {
  rq_images : list string;
  rq_operation : string;
  rq_parameters : gmap string Py.value;
  rq_callback_url : option string
}.

Record Broker := mkBroker {
  processing_tasks : list (string * request_data);
  webhook_tasks : list (string * string * string);
  cleanup_tasks : list string
}.

Record World := mkWorld {
  db : Database;
  broker : Broker
}.

(** Python truthiness of an optional string, list and float. *)
Definition truthy_str (s : option string) : bool :=
  match s with
  | Some s => negb (String.eqb s "")
  | None => false
  end.

Definition truthy_list {A} (l : list A) : bool :=
  match l with
  | [] => false
  | _ :: _ => true
  end.

Definition truthy_float (x : option Q) : bool :=
  match x with
  | Some q => negb (Qeq_bool q 0)
  | None => false
  end.

(** ** Image service (app/services/image_service.py) *)

Module ImageService.

Definition is_none {A} (o : option A) : bool :=
  match o with
  | Some _ => false
  | None => true
  end.

(** [update_job_status]: the assignments of the source, in order. *)
Definition update_job_status
    (env : call_env) (d : Database) (job_id : string) (new_status : string)
    (new_progress : option Z) (new_error_message : option string)
    (new_output_images : list string) (new_processing_time : option Q)
    : Database :=
  match jobs d !! job_id with
  | None => d
  | Some job =>
    let progress1 :=
      match new_progress with
      | Some p => p
      | None => progress job
      end in
    let started1 :=
      if String.eqb new_status "processing" && is_none (started_at job)
      then Some (utcnow env) else started_at job in
    let terminal :=
      String.eqb new_status "completed" || String.eqb new_status "failed" in
    let completed1 :=
      if terminal then Some (utcnow env) else completed_at job in
    let progress2 :=
      if terminal then
        (if String.eqb new_status "completed" then 100 else progress1)
      else progress1 in
    let error1 :=
      if truthy_str new_error_message then new_error_message
      else error_message job in
    let outputs1 :=
      if truthy_list new_output_images then new_output_images
      else output_images job in
    let time1 :=
      if truthy_float new_processing_time then new_processing_time
      else processing_time_seconds job in
    let job' :=
      {| job_user_id := job_user_id job;
         operation := operation job;
         status := new_status;
         progress := progress2;
         credits_used := credits_used job;
         callback_url := callback_url job;
         error_message := error1;
         output_images := outputs1;
         processing_time_seconds := time1;
         job_updated_at := utcnow env;
         started_at := started1;
         completed_at := completed1 |} in
    {| users := users d;
       transactions := transactions d;
       jobs := <[job_id := job']> (jobs d) |}
  end.

(** [queue_processing_job].  [delay_error] is what
    [process_images_task.delay] does: [None] when the broker takes the
    message, [Some e] when it raises an exception printing as [e]. *)
Definition queue_processing_job
    (env : call_env) (delay_error : option string)
    (w : World) (job_id : string) (rd : request_data) : World :=
  match delay_error with
  | None =>
    {| db := db w;
       broker :=
         {| processing_tasks := processing_tasks (broker w) ++ [(job_id, rd)];
            webhook_tasks := webhook_tasks (broker w);
            cleanup_tasks := cleanup_tasks (broker w) |} |}
  | Some e =>
    {| db := update_job_status env (db w) job_id "failed" None
               (Some ("Failed to queue job: " +:+ e)) [] None;
       broker := broker w |}
  end.

(** [create_job]: the row it inserts, as far as the columns of
    [ProcessingJob] go, under the id drawn from [uuid.uuid4()]; [None]
    when the insert is refused because the id is taken (the
    [except] branch, which rolls back and raises [ImageProcessingError]). *)
Definition create_job
    (env : call_env) (d : Database) (user_id : string) (rq : request_data)
    (estimated_cost : Z) : option (Database * string) :=
  let job_id := uuid4 env in
  match jobs d !! job_id with
  | Some _ => None
  | None =>
    let job :=
      {| job_user_id := user_id;
         operation := rq_operation rq;
         status := "queued";
         progress := 0;
         credits_used := estimated_cost;
         callback_url := rq_callback_url rq;
         error_message := None;
         output_images := [];
         processing_time_seconds := None;
         job_updated_at := utcnow env;
         started_at := None;
         completed_at := None |} in
    Some ({| users := users d;
             transactions := transactions d;
             jobs := <[job_id := job]> (jobs d) |}, job_id)
  end.

End ImageService.

(** ** Cancel endpoint (app/api/v1/endpoints/images.py) *)

Module Images.

Inductive response :=
| Cancelled (message : string) (job_id : string)
| JobNotFoundError (job_id : string)
| ImageProcessingError (message : string).

(** [job.status in ["completed", "failed", "cancelled"]] *)
Definition not_cancellable (st : string) : bool :=
  String.eqb st "completed" || String.eqb st "failed" || String.eqb st "cancelled".

(** [cancel_job] for the authenticated user [user_id].  The status is
    assigned first and read back afterwards, as in the source. *)
Definition cancel_job
    (env : call_env) (d : Database) (job_id : string) (user_id : string)
    : Database * response :=
  match jobs d !! job_id with
  | None => (d, JobNotFoundError job_id)
  | Some job =>
    if negb (String.eqb (job_user_id job) user_id) then (d, JobNotFoundError job_id)
    else if not_cancellable (status job) then
      (d, ImageProcessingError ("Cannot cancel job with status: " +:+ status job))
    else
      let job :=
        {| job_user_id := job_user_id job;
           operation := operation job;
           status := "cancelled";
           progress := progress job;
           credits_used := credits_used job;
           callback_url := callback_url job;
           error_message := error_message job;
           output_images := output_images job;
           processing_time_seconds := processing_time_seconds job;
           job_updated_at := utcnow env;
           started_at := started_at job;
           completed_at := completed_at job |} in
      let d :=
        {| users := users d;
           transactions := transactions d;
           jobs := <[job_id := job]> (jobs d) |} in
      let d :=
        if String.eqb (status job) "queued" then
          fst (CreditService.refund_credits env d user_id (credits_used job)
                 ("Job " +:+ job_id +:+ " cancelled"))
        else d in
      (d, Cancelled "Job cancelled successfully" job_id)
  end.

(** *** Admission: [process_images] *)

Inductive process_response :=
| JobResponse (job_id status : string)
    (estimated_time credits_used credits_remaining : Z) (message : string)
| InsufficientCreditsError (required available : Z)
| ProcessImagesFailed (message : string).

Section Admission.
Variable float_str : Q -> string.
(** [settings.credit_costs] *)
Variable credit_costs : gmap string Z.
(** [ImageService.estimate_processing_time], a binary64 computation, as
    a function of the image count, the operation and the parameters. *)
Variable estimate_processing_time : nat -> string -> gmap string Py.value -> Z.

(** [process_images] for the authenticated [user], whose id is
    [user_id].  [env_tx] serves the reservation, [env_job] the job row;
    the background task that enqueues the job runs last. *)
Definition process_images
    (env_tx env_job : call_env) (delay_error : option string)
    (w : World) (user_id : string) (user : User) (rq : request_data)
    : World * process_response :=
  let image_count := length (rq_images rq) in
  let cost :=
    CreditService.calculate_cost float_str credit_costs
      (rq_operation rq) (rq_parameters rq) (Z.of_nat image_count) in
  match CreditService.check_and_reserve_credits env_tx (db w) user_id cost with
  | (_, false) => (w, InsufficientCreditsError cost (credits_balance user))
  | (d, true) =>
    match ImageService.create_job env_job d user_id rq cost with
    | None =>
      ({| db := d; broker := broker w |},
       ProcessImagesFailed "Failed to create processing job")
    | Some (d, job_id) =>
      let queued :=
        ImageService.queue_processing_job env_job delay_error
          {| db := d; broker := broker w |} job_id rq in
      match users d !! user_id with
      | None => (queued, ProcessImagesFailed "Failed to create processing job")
      | Some updated_user =>
        let estimated_time :=
          estimate_processing_time image_count (rq_operation rq) (rq_parameters rq) in
        (queued,
         JobResponse job_id "queued" estimated_time cost
           (credits_balance updated_user)
           "Job queued successfully for processing")
      end
    end
  end.
End Admission.

(** *** Reading a job: [get_job_status] and [download_result] *)

Record JobStatusResponse := mkStatus {
  rs_job_id : string;
  rs_status : string;
  rs_progress : Z;
  rs_operation : string;
  rs_started_at : option Z;
  rs_completed_at : option Z;
  rs_result_urls : option (list string);
  rs_processing_time : option Q;
  rs_error_message : option string
}.

Inductive status_response :=
| StatusOk (r : JobStatusResponse)
| StatusNotFound (job_id : string)
| StatusFailed (message : string).

Section Reading.
(** Whether a string is a value of the [JobStatus] enumeration, which is
    declared outside the sources at hand. *)
Variable is_job_status : string -> bool.

(** [get_job_status] for the authenticated user [user_id], on the
    columns of [ProcessingJob]. *)
Definition get_job_status (d : Database) (job_id user_id : string) : status_response :=
  match jobs d !! job_id with
  | None => StatusNotFound job_id
  | Some job =>
    if negb (String.eqb (job_user_id job) user_id) then StatusNotFound job_id
    else if negb (is_job_status (status job)) then
      StatusFailed "Failed to get job status"
    else
      let with_results :=
        String.eqb (status job) "completed" && truthy_list (output_images job) in
      let with_error :=
        String.eqb (status job) "failed" && truthy_str (error_message job) in
      StatusOk
        {| rs_job_id := job_id;
           rs_status := status job;
           rs_progress := progress job;
           rs_operation := operation job;
           rs_started_at := started_at job;
           rs_completed_at := completed_at job;
           rs_result_urls := if with_results then Some (output_images job) else None;
           rs_processing_time :=
             if with_results then processing_time_seconds job else None;
           rs_error_message := if with_error then error_message job else None |}
  end.
End Reading.

Inductive download_response :=
| FileResponse (path media_type filename : string)
| DownloadNotFound (job_id : string)
| DownloadFailed (message : string).

Section Download.
(** [settings.storage_path], what [str(Path(a) / b / ...)] gives for a
    list of components (the join is the path library's), and what
    [Path.exists] answers. *)
Variable storage_path : string.
Variable path_join : list string -> string.
Variable file_exists : string -> bool.

(** The file [download_result_image] opens:
    [storage_path / "jobs" / job_id / "output" / f"output_{image_index}.jpg"]. *)
Definition output_file (job_id : string) (image_index : Z) : string :=
  path_join
    [ storage_path; "jobs"; job_id; "output";
      "output_" +:+ pretty image_index +:+ ".jpg" ].

(** [download_result].  A missing file raises [StorageError] in the image
    service, which the endpoint turns into its generic failure. *)
Definition download_result
    (d : Database) (job_id : string) (image_index : Z) (user_id : string)
    : download_response :=
  match jobs d !! job_id with
  | None => DownloadNotFound job_id
  | Some job =>
    if negb (String.eqb (job_user_id job) user_id) then DownloadNotFound job_id
    else if negb (String.eqb (status job) "completed") then
      DownloadFailed "Job is not completed yet"
    else if negb (truthy_list (output_images job))
            || (image_index >=? Z.of_nat (length (output_images job))) then
      DownloadFailed "Image not found"
    else if file_exists (output_file job_id image_index) then
      FileResponse (output_file job_id image_index) "image/jpeg"
        ("processed_image_" +:+ pretty image_index +:+ ".jpg")
    else DownloadFailed "Failed to download result"
  end.
End Download.

End Images.

(** ** Image worker (app/workers/image_worker.py) *)

Module ImageWorker.

(** What the collaborators of the task do during one delivery: the
    model loader ([Some e]: it raises [e]), the transform of one image,
    the artifact store ([inr e]: it raises [e]), and the wall-clock
    time measured at completion. *)
Record Transform := mkTransform {
  load_models : option string;
  process_image : string -> string -> gmap string Py.value -> string + string;
  save_output_images : string -> list string -> list string + string;
  elapsed : Q
}.

(** [self] of the bound task. *)
Record TaskSelf := mkSelf {
  request_retries : nat
}.

(** The exception built by [self.retry(exc=e, countdown=60, max_retries=3)]. *)
Record Retry := mkRetry {
  retry_exc : string;
  retry_countdown : Z;
  retry_max_retries : nat;
  retry_request_retries : nat
}.

Inductive task_result :=
| Returned
| Raised (r : Retry).

(** [send_webhook_notification.delay(job_id, callback_url, st)] under
    [if callback_url:], which holds of a string that is present and not
    empty. *)
Definition notify (b : Broker) (job_id : string) (url : option string) (st : string)
    : Broker :=
  match url with
  | Some u =>
    if String.eqb u "" then b
    else
      {| processing_tasks := processing_tasks b;
         webhook_tasks := webhook_tasks b ++ [(job_id, u, st)];
         cleanup_tasks := cleanup_tasks b |}
  | None => b
  end.

(** The messages one call of [notify] adds to the webhook queue. *)
Definition notified (job_id : string) (url : option string) (st : string)
    : list (string * string * string) :=
  match url with
  | Some u => if String.eqb u "" then [] else [(job_id, u, st)]
  | None => []
  end.

(** [cleanup_job_task.apply_async(args=[job_id], countdown=3600)] *)
Definition schedule_cleanup (b : Broker) (job_id : string) : Broker :=
  {| processing_tasks := processing_tasks b;
     webhook_tasks := webhook_tasks b;
     cleanup_tasks := cleanup_tasks b ++ [job_id] |}.

Section Task.
(** [int(k / total_images * 90)], a binary64 computation, as a
    function of [k] and [total_images]. *)
Variable progress_pct : nat -> nat -> Z.

(** The [for i, image_data in enumerate(images)] loop from index [i]
    on: the session after it and either the processed images or the
    message of the exception that left the loop. *)
Fixpoint process_each
    (tr : Transform) (env : call_env) (job_id : string)
    (op : string) (parameters : gmap string Py.value) (total_images : nat)
    (i : nat) (images : list string) (processed_images : list string)
    (d : Database) : Database * (list string + string) :=
  match images with
  | [] => (d, inl processed_images)
  | image_data :: rest =>
    match process_image tr image_data op parameters with
    | inr e => (d, inr e)
    | inl result_image =>
      let processed_images := processed_images ++ [result_image] in
      let progress := progress_pct (i + 1) total_images in
      let d :=
        ImageService.update_job_status env d job_id "processing"
          (Some progress) None [] None in
      process_each tr env job_id op parameters total_images (S i) rest
        processed_images d
    end
  end.

(** The [try] block up to and including the "completed" update:
    [inl tt] when it runs through, [inr e] when an exception printing
    as [e] leaves it. *)
Definition try_block
    (tr : Transform) (env : call_env) (d : Database) (job_id : string)
    (rd : request_data) : Database * (unit + string) :=
  match load_models tr with
  | Some e => (d, inr e)
  | None =>
    let d :=
      ImageService.update_job_status env d job_id "processing" (Some 0) None [] None in
    let images := rq_images rd in
    let total_images := length images in
    match process_each tr env job_id (rq_operation rd) (rq_parameters rd)
            total_images 0 images [] d with
    | (d, inr e) => (d, inr e)
    | (d, inl processed_images) =>
      match save_output_images tr job_id processed_images with
      | inr e => (d, inr e)
      | inl output_urls =>
        let processing_time := elapsed tr in
        (ImageService.update_job_status env d job_id "completed" (Some 100) None
           output_urls (Some processing_time), inl tt)
      end
    end
  end.

(** One delivery of [process_images_task].  The clock is read once per
    delivery, and the broker is taken to accept the webhook and cleanup
    messages the worker sends.  The retry request is the [Raised] value;
    the message by which the queue library publishes the task again is
    not entered in [processing_tasks]. *)
Definition process_images_task
    (self : TaskSelf) (tr : Transform) (env : call_env)
    (w : World) (job_id : string) (rd : request_data) : World * task_result :=
  match try_block tr env (db w) job_id rd with
  | (d, inl _) =>
    let b := notify (broker w) job_id (rq_callback_url rd) "completed" in
    let b := schedule_cleanup b job_id in
    ({| db := d; broker := b |}, Returned)
  | (d, inr e) =>
    let error_message := "Processing failed: " +:+ e in
    let d :=
      ImageService.update_job_status env d job_id "failed" None
        (Some error_message) [] None in
    let b := notify (broker w) job_id (rq_callback_url rd) "failed" in
    ({| db := d; broker := b |},
     Raised {| retry_exc := e;
               retry_countdown := 60;
               retry_max_retries := 3;
               retry_request_retries := request_retries self |})
  end.

(** The queue delivering the task again after each raised retry:
    [runs] gives what the collaborators do at each delivery, the
    first one carrying [request.retries = n]. *)
Fixpoint deliveries
    (n : nat) (runs : list (Transform * call_env))
    (w : World) (job_id : string) (rd : request_data) : World :=
  match runs with
  | [] => w
  | (tr, env) :: rest =>
    match process_images_task {| request_retries := n |} tr env w job_id rd with
    | (w', Returned) => w'
    | (w', Raised _) => deliveries (S n) rest w' job_id rd
    end
  end.
End Task.

End ImageWorker.

(** ** Sequences of ledger operations *)

Module Ledger.

(** The mutating entry points of the credit service, by the names the
    specification gives them. *)
Inductive op :=
| Reserve (user_id : string) (credits : Z)
| Refund (user_id : string) (credits : Z) (reason : string)
| Purchase (user_id : string) (credits : Z) (pay_id pay_method : option string).

Definition step (env : call_env) (o : op) (d : Database) : Database :=
  match o with
  | Reserve u c => fst (CreditService.check_and_reserve_credits env d u c)
  | Refund u c reason => fst (CreditService.refund_credits env d u c reason)
  | Purchase u c pid pm => fst (CreditService.add_credits env d u c pid pm)
  end.

Fixpoint run (ops : list (call_env * op)) (d : Database) : Database :=
  match ops with
  | [] => d
  | (env, o) :: rest => run rest (step env o d)
  end.

(** Sum of the amounts of the entries of one kind of one account. *)
Fixpoint sum_of (kind user_id : string) (txs : list CreditTransaction) : Z :=
  match txs with
  | [] => 0
  | t :: rest =>
    if String.eqb (tx_user_id t) user_id && String.eqb (transaction_type t) kind
    then amount t + sum_of kind user_id rest
    else sum_of kind user_id rest
  end.

(** The balance equation in the words of the specification:
    balance = total_purchased - total_used + sum of refunds + sum of bonuses. *)
Definition spec_balance_equation (d : Database) (user_id : string) : Prop :=
  match users d !! user_id with
  | Some u =>
    credits_balance u =
      total_credits_purchased u - total_credits_used u
      + sum_of "refund" user_id (transactions d)
      + sum_of "bonus" user_id (transactions d)
  | None => True
  end.

(** The balance equation the counters of the code keep. *)
Definition balanced (u : User) : Prop :=
  credits_balance u = total_credits_purchased u - total_credits_used u.

(** The account an operation is addressed to. *)
Definition account_of (o : op) : string :=
  match o with
  | Reserve u _ | Refund u _ _ | Purchase u _ _ _ => u
  end.

(** Sum of the signed amounts of all entries of one account. *)
Fixpoint net_amount (user_id : string) (txs : list CreditTransaction) : Z :=
  match txs with
  | [] => 0
  | t :: rest =>
    if String.eqb (tx_user_id t) user_id
    then amount t + net_amount user_id rest
    else net_amount user_id rest
  end.

(** [balance_after = balance_before + amount] *)
Definition entry_adds_up (t : CreditTransaction) : Prop :=
  balance_after t = balance_before t + amount t.

End Ledger.

(** ** Concrete states used in the examples *)

Module Sample.

Definition env1 : call_env := {| utcnow := 1; uuid4 := "tx-1" |}.
Definition env2 : call_env := {| utcnow := 2; uuid4 := "tx-2" |}.

(** An account holding 10 purchased credits. *)
Definition alice : User :=
  {| credits_balance := 10; total_credits_purchased := 10;
     total_credits_used := 0; user_updated_at := 0 |}.

Definition db0 : Database :=
  {| users := {[ "alice" := alice ]}; transactions := []; jobs := ∅ |}.

(** The same account after a job reserved 2 credits. *)
Definition alice_reserved : User :=
  {| credits_balance := 8; total_credits_purchased := 10;
     total_credits_used := 2; user_updated_at := 0 |}.

Definition job_with (st : string) (p : Z) : ProcessingJob :=
  {| job_user_id := "alice"; operation := "enhance"; status := st;
     progress := p; credits_used := 2;
     callback_url := Some "https://client.example/hook";
     error_message := None; output_images := [];
     processing_time_seconds := None; job_updated_at := 0;
     started_at := None; completed_at := None |}.

Definition db_with_job (st : string) (p : Z) : Database :=
  {| users := {[ "alice" := alice_reserved ]};
     transactions := [];
     jobs := {[ "job-1" := job_with st p ]} |}.

Definition request : request_data :=
  {| rq_images := ["aGVsbG8="]; rq_operation := "enhance";
     rq_parameters := ∅;
     rq_callback_url := Some "https://client.example/hook" |}.

Definition idle : Broker :=
  {| processing_tasks := []; webhook_tasks := []; cleanup_tasks := [] |}.

(** A transform engine that fails on every image. *)
Definition broken : ImageWorker.Transform :=
  {| ImageWorker.load_models := None;
     ImageWorker.process_image := fun _ _ _ => inr "CUDA out of memory";
     ImageWorker.save_output_images := fun _ imgs => inl imgs;
     ImageWorker.elapsed := 1 |}.

(** A transform engine that works, and an artifact store that names the
    outputs after the job. *)
Definition working : ImageWorker.Transform :=
  {| ImageWorker.load_models := None;
     ImageWorker.process_image := fun image _ _ => inl ("enhanced:" +:+ image);
     ImageWorker.save_output_images :=
       fun job_id imgs =>
         inl (imap (fun i _ =>
                      "https://files.example/jobs/" +:+ job_id +:+ "/output/output_" +:+
                        pretty i +:+ ".jpg") imgs);
     ImageWorker.elapsed := 42 |}.

Definition pct (k total : nat) : Z := Z.of_nat (k * 90 / total).
Definition no_float (q : Q) : string := "".

End Sample.

(** ** The contract in the words of the specification

    Predicates that restate sentences of the specification over the
    embedded operations; the properties below compare them with what the
    operations do. *)

Module Contract.

(** "A second refund carrying the same idempotency key is a no-op":
    after the second call the balance and the ledger are as the first
    call left them. *)
Definition second_refund_is_noop
    (env env' : call_env) (d : Database) (user_id : string) (c : Z)
    (key : string) : Prop :=
  let d1 := (CreditService.refund_credits env d user_id c key).1 in
  let d2 := (CreditService.refund_credits env' d1 user_id c key).1 in
  CreditService.get_user_credits d2 user_id = CreditService.get_user_credits d1 user_id /\
  transactions d2 = transactions d1.

(** [completed], [failed] and [cancelled]. *)
Definition terminal (st : string) : Prop :=
  st = "completed" \/ st = "failed" \/ st = "cancelled".

(** "Updates delivered after a job reaches a terminal state are
    dropped": status and progress stay as they were. *)
Definition update_dropped
    (env : call_env) (d : Database) (job_id : string) (new_status : string)
    (new_progress : option Z) : Prop :=
  forall job,
    jobs d !! job_id = Some job ->
    exists job',
      jobs (ImageService.update_job_status env d job_id new_status new_progress
              None [] None) !! job_id = Some job' /\
      status job' = status job /\
      progress job' = progress job.

(** "Cancel returns InvalidState and leaves Ledger/Job unchanged". *)
Definition cancel_refused
    (env : call_env) (d : Database) (job_id user_id : string) : Prop :=
  exists message,
    Images.cancel_job env d job_id user_id = (d, Images.ImageProcessingError message).

(** "If retries remain, the Dispatcher takes no Job Store action and
    the status remains processing": a delivery that raises a retry
    request with retries left leaves the job [processing] and notifies
    nobody. *)
Definition failed_attempt_is_silent
    (progress_pct : nat -> nat -> Z)
    (self : ImageWorker.TaskSelf) (tr : ImageWorker.Transform) (env : call_env)
    (w : World) (job_id : string) (rd : request_data) : Prop :=
  let out := ImageWorker.process_images_task progress_pct self tr env w job_id rd in
  forall r,
    out.2 = ImageWorker.Raised r ->
    (ImageWorker.retry_request_retries r < ImageWorker.retry_max_retries r)%nat ->
    status <$> jobs (db out.1) !! job_id = Some "processing" /\
    webhook_tasks (broker out.1) = webhook_tasks (broker w).

(** *** Cost estimation, read off the parameter dictionary *)








End Contract.

(** ** Frames *)

(** The session [d'] differs from [d] at most in the row of one job:
    same accounts, same ledger, same other jobs. *)
Definition same_but_job (job_id : string) (d d' : Database) : Prop :=
  users d' = users d /\
  transactions d' = transactions d /\
  forall other, other <> job_id -> jobs d' !! other = jobs d !! other.

(** * Properties *)

(** ** Ledger *)

Section LedgerFacts.
Implicit Types (d : Database) (u : User) (env : call_env).

Lemma reserve_unfold env d user_id u c :
  users d !! user_id = Some u ->
  CreditService.check_and_reserve_credits env d user_id c =
    if credits_balance u <? c then (d, false)
    else
      ({| users :=
            <[user_id :=
               {| credits_balance := credits_balance u - c;
                  total_credits_purchased := total_credits_purchased u;
                  total_credits_used := total_credits_used u + c;
                  user_updated_at := utcnow env |}]> (users d);
          transactions :=
            transactions d ++
              [ {| tx_id := uuid4 env; tx_user_id := user_id; amount := - c;
                   transaction_type := "usage";
                   description := "Credits reserved for image processing";
                   balance_before := credits_balance u;
                   balance_after := credits_balance u - c;
                   payment_id := None; payment_method := None;
                   payment_status := None |} ];
          jobs := jobs d |}, true).
Proof.
  intros Hu. unfold CreditService.check_and_reserve_credits. rewrite Hu.
  reflexivity.
Qed.

Lemma refund_unfold env d user_id u c reason :
  users d !! user_id = Some u ->
  CreditService.refund_credits env d user_id c reason =
    ({| users :=
          <[user_id :=
             {| credits_balance := credits_balance u + c;
                total_credits_purchased := total_credits_purchased u;
                total_credits_used := total_credits_used u - c;
                user_updated_at := utcnow env |}]> (users d);
        transactions :=
          transactions d ++
            [ {| tx_id := uuid4 env; tx_user_id := user_id; amount := c;
                 transaction_type := "refund"; description := reason;
                 balance_before := credits_balance u;
                 balance_after := credits_balance u + c;
                 payment_id := None; payment_method := None;
                 payment_status := None |} ];
        jobs := jobs d |}, true).
Proof.
  intros Hu. unfold CreditService.refund_credits. rewrite Hu. reflexivity.
Qed.

Lemma sum_of_app kind user_id txs txs' :
  Ledger.sum_of kind user_id (txs ++ txs') =
    Ledger.sum_of kind user_id txs + Ledger.sum_of kind user_id txs'.
Proof.
  induction txs as [|t txs IH]; simpl; [reflexivity|].
  rewrite IH. destruct (_ && _); lia.
Qed.

(** The account looked up after the row of [w] was rewritten: either the
    rewritten row itself, whose counters moved together, or a row left as
    it was. *)
Ltac rewritten_row Hu Hv :=
  simpl; rewrite lookup_insert; case_decide; [| eauto];
  subst; rewrite Hu in Hv; injection Hv as <-;
  eexists; split; [reflexivity |]; simpl; lia.

(** Each ledger operation keeps an account, and keeps it balanced. *)
Lemma step_balanced env o d user_id u :
  users d !! user_id = Some u ->
  Ledger.balanced u ->
  exists u',
    users (Ledger.step env o d) !! user_id = Some u' /\ Ledger.balanced u'.
Proof.
  intros Hu Hbal. unfold Ledger.balanced in *.
  destruct o as [w c | w c reason | w c pid pm]; simpl.
  - unfold CreditService.check_and_reserve_credits.
    destruct (users d !! w) as [v|] eqn:Hv; [| eauto].
    destruct (credits_balance v <? c); [eauto |].
    rewritten_row Hu Hv.
  - unfold CreditService.refund_credits.
    destruct (users d !! w) as [v|] eqn:Hv; [| eauto].
    rewritten_row Hu Hv.
  - unfold CreditService.add_credits.
    destruct (users d !! w) as [v|] eqn:Hv; [| eauto].
    rewritten_row Hu Hv.
Qed.
End LedgerFacts.

(** C3. Reserve ([check_and_reserve_credits]) on an existing account and
    a non-negative amount: it returns the insufficient-funds outcome
    ([false]), with the whole session unchanged, exactly when the amount
    exceeds the balance; otherwise it returns [true], debits the balance
    by the amount, increments [total_credits_used] by the amount, leaves
    every other account alone, and appends one [usage] entry of amount
    [-amount] recording [balance_before] and
    [balance_after = balance_before - amount].  In either case the balance
    does not grow, and it is non-negative after a successful reservation
    and never turned negative by a failed one. *)
Theorem C3_reserve_debits_iff_funds_suffice
    (env : call_env) (d : Database) (user_id : string) (u : User) (c : Z) :
  users d !! user_id = Some u ->
  0 <= c ->
  let r := CreditService.check_and_reserve_credits env d user_id c in
  (r.2 = false <-> c > credits_balance u) /\
  (c > credits_balance u -> r.1 = d) /\
  (c <= credits_balance u ->
     r.2 = true /\
     users r.1 !! user_id =
       Some {| credits_balance := credits_balance u - c;
               total_credits_purchased := total_credits_purchased u;
               total_credits_used := total_credits_used u + c;
               user_updated_at := utcnow env |} /\
     (forall other, other <> user_id -> users r.1 !! other = users d !! other) /\
     transactions r.1 =
       transactions d ++
         [ {| tx_id := uuid4 env; tx_user_id := user_id; amount := - c;
              transaction_type := "usage";
              description := "Credits reserved for image processing";
              balance_before := credits_balance u;
              balance_after := credits_balance u - c;
              payment_id := None; payment_method := None;
              payment_status := None |} ] /\
     jobs r.1 = jobs d /\
     0 <= credits_balance u - c) /\
  (forall u', users r.1 !! user_id = Some u' ->
     credits_balance u' <= credits_balance u /\
     (0 <= credits_balance u -> 0 <= credits_balance u')).
Proof.
  intros Hu Hc r. subst r. rewrite (reserve_unfold env d user_id u c Hu).
  destruct (credits_balance u <? c) eqn:Hlt; simpl.
  - apply Z.ltb_lt in Hlt.
    split; [split; [lia | reflexivity] |].
    split; [reflexivity |].
    split; [lia |].
    intros u' Hu'. rewrite Hu in Hu'. injection Hu' as <-. lia.
  - apply Z.ltb_ge in Hlt.
    split; [split; [discriminate | lia] |].
    split; [lia |].
    split.
    + intros _. split; [reflexivity |].
      split; [apply lookup_insert_eq |].
      split; [intros other Hne; apply lookup_insert_ne; congruence |].
      split; [reflexivity |].
      split; [reflexivity | lia].
    + intros u' Hu'. rewrite lookup_insert_eq in Hu'.
      injection Hu' as <-. simpl. lia.
Qed.

Lemma C3_reserve_witness :
  (CreditService.check_and_reserve_credits Sample.env1 Sample.db0 "alice" 2).2 = true /\
  users (CreditService.check_and_reserve_credits Sample.env1 Sample.db0 "alice" 2).1
    !! "alice" =
    Some {| credits_balance := 8; total_credits_purchased := 10;
            total_credits_used := 2; user_updated_at := 1 |}.
Proof.
  pose proof (C3_reserve_debits_iff_funds_suffice
                Sample.env1 Sample.db0 "alice" Sample.alice 2) as H.
  destruct H as (_ & _ & H & _); [reflexivity | lia |].
  destruct H as (Hflag & Huser & _); [simpl; lia |].
  split; [exact Hflag | exact Huser].
Defined.

(** C10. [refund_credits] bounds the refunded amount by nothing: on every
    existing account and for every amount it returns [true], credits the
    balance by the amount, decrements [total_credits_used] by the amount
    and appends a [refund] entry, whatever was reserved before; so a
    refund larger than [total_credits_used] leaves [total_credits_used]
    negative. *)
Theorem C10_refund_is_unbounded
    (env : call_env) (d : Database) (user_id : string) (u : User)
    (c : Z) (reason : string) :
  users d !! user_id = Some u ->
  let r := CreditService.refund_credits env d user_id c reason in
  r.2 = true /\
  users r.1 !! user_id =
    Some {| credits_balance := credits_balance u + c;
            total_credits_purchased := total_credits_purchased u;
            total_credits_used := total_credits_used u - c;
            user_updated_at := utcnow env |} /\
  transactions r.1 =
    transactions d ++
      [ {| tx_id := uuid4 env; tx_user_id := user_id; amount := c;
           transaction_type := "refund"; description := reason;
           balance_before := credits_balance u;
           balance_after := credits_balance u + c;
           payment_id := None; payment_method := None;
           payment_status := None |} ] /\
  (total_credits_used u < c ->
     exists u', users r.1 !! user_id = Some u' /\ total_credits_used u' < 0).
Proof.
  intros Hu r. subst r. rewrite (refund_unfold env d user_id u c reason Hu).
  simpl. rewrite lookup_insert_eq. repeat split.
  intros Hbig. eexists. split; [reflexivity|]. simpl. lia.
Qed.

Lemma C10_refund_witness :
  exists u',
    users (CreditService.refund_credits Sample.env1 Sample.db0 "alice" 5 "goodwill").1
      !! "alice" = Some u' /\
    total_credits_used u' < 0.
Proof.
  pose proof (C10_refund_is_unbounded
                Sample.env1 Sample.db0 "alice" Sample.alice 5 "goodwill") as H.
  destruct H as (_ & _ & _ & H); [reflexivity |].
  apply H. simpl. lia.
Defined.

(** C1 (as amended). [refund_credits] takes no idempotency key and keeps
    no record of refunds already made: on an existing account every call
    returns [true], credits the balance by the amount, decrements
    [total_credits_used] by the amount and appends a new [refund] entry.
    Two calls with the same amount and the same reason therefore credit
    the account twice and append two entries. *)
Theorem C1_refund_credits_on_every_call
    (env env' : call_env) (d : Database) (user_id : string) (u : User)
    (c : Z) (reason : string) :
  users d !! user_id = Some u ->
  let r1 := CreditService.refund_credits env d user_id c reason in
  let r2 := CreditService.refund_credits env' r1.1 user_id c reason in
  r1.2 = true /\ r2.2 = true /\
  CreditService.get_user_credits r1.1 user_id = Some (credits_balance u + c) /\
  CreditService.get_user_credits r2.1 user_id = Some (credits_balance u + c + c) /\
  total_credits_used <$> users r2.1 !! user_id = Some (total_credits_used u - c - c) /\
  transactions r2.1 =
    transactions d ++
      [ {| tx_id := uuid4 env; tx_user_id := user_id; amount := c;
           transaction_type := "refund"; description := reason;
           balance_before := credits_balance u;
           balance_after := credits_balance u + c;
           payment_id := None; payment_method := None;
           payment_status := None |};
        {| tx_id := uuid4 env'; tx_user_id := user_id; amount := c;
           transaction_type := "refund"; description := reason;
           balance_before := credits_balance u + c;
           balance_after := credits_balance u + c + c;
           payment_id := None; payment_method := None;
           payment_status := None |} ].
Proof.
  intros Hu r1 r2. subst r2 r1.
  rewrite (refund_unfold env d user_id u c reason Hu). simpl.
  erewrite refund_unfold by (simpl; apply lookup_insert_eq).
  unfold CreditService.get_user_credits. simpl.
  rewrite !lookup_insert_eq. simpl.
  rewrite <- app_assoc. simpl. repeat split.
Qed.

Lemma C1_refund_twice_witness :
  CreditService.get_user_credits
    (CreditService.refund_credits Sample.env2
       (CreditService.refund_credits Sample.env1 (Sample.db_with_job "queued" 0)
          "alice" 2 "Job job-1 cancelled").1
       "alice" 2 "Job job-1 cancelled").1 "alice" = Some 12.
Proof.
  pose proof (C1_refund_credits_on_every_call Sample.env1 Sample.env2
                (Sample.db_with_job "queued" 0) "alice" Sample.alice_reserved 2
                "Job job-1 cancelled") as H.
  destruct H as (_ & _ & _ & H & _); [reflexivity |].
  exact H.
Defined.

(** C1, the claim as stated, fails: with the job id in the reason as the
    key, the second refund of 2 credits to an account holding 8 is not a
    no-op; the balance goes 8, 10, 12 and a second entry is appended. *)
Lemma C1_refund_not_idempotent :
  ~ Contract.second_refund_is_noop Sample.env1 Sample.env2
      (Sample.db_with_job "queued" 0) "alice" 2 "Job job-1 cancelled".
Proof.
  unfold Contract.second_refund_is_noop. intros [Hbal _].
  vm_compute in Hbal. discriminate Hbal.
Qed.

(** C4 (as amended).  The equation the ledger keeps is
    [balance = total_purchased - total_used]: refunds are already netted
    out of [total_credits_used], so their amounts are not added on top,
    and the credit service has no separate grant operation.  For every
    account on which the equation holds, after any sequence of Reserve,
    Refund and Purchase calls (on this or on other accounts) the account
    still exists and the equation still holds. *)
Theorem C4_balance_is_purchased_minus_used
    (ops : list (call_env * Ledger.op)) (d : Database) (user_id : string) (u : User) :
  users d !! user_id = Some u ->
  credits_balance u = total_credits_purchased u - total_credits_used u ->
  exists u',
    users (Ledger.run ops d) !! user_id = Some u' /\
    credits_balance u' = total_credits_purchased u' - total_credits_used u'.
Proof.
  revert d u. induction ops as [|[env o] ops IH]; intros d u Hu Hbal; simpl.
  - exists u. split; assumption.
  - destruct (step_balanced env o d user_id u Hu Hbal) as (u1 & Hu1 & Hbal1).
    exact (IH _ u1 Hu1 Hbal1).
Qed.

Lemma C4_balance_witness :
  exists u',
    users (Ledger.run
             [ (Sample.env1, Ledger.Reserve "alice" 2);
               (Sample.env2, Ledger.Refund "alice" 2 "Job job-1 cancelled") ]
             Sample.db0) !! "alice" = Some u' /\
    credits_balance u' = total_credits_purchased u' - total_credits_used u'.
Proof.
  apply (C4_balance_is_purchased_minus_used _ Sample.db0 "alice" Sample.alice).
  - reflexivity.
  - reflexivity.
Defined.

(** C4, the claim as stated, fails: an account with 10 purchased credits
    and an empty ledger satisfies the stated equation; after reserving 2
    and refunding 2 the balance is 10 while
    purchased - used + refunds + bonuses is 10 - 0 + 2 + 0 = 12. *)
Lemma C4_stated_equation_broken_by_refund :
  Ledger.spec_balance_equation Sample.db0 "alice" /\
  ~ Ledger.spec_balance_equation
      (Ledger.run
         [ (Sample.env1, Ledger.Reserve "alice" 2);
           (Sample.env2, Ledger.Refund "alice" 2 "Job job-1 cancelled") ]
         Sample.db0) "alice".
Proof.
  split.
  - vm_compute. reflexivity.
  - intros H. vm_compute in H. discriminate H.
Qed.

(** ** Job store *)

Section JobStoreFacts.
Implicit Types (d : Database) (job : ProcessingJob) (env : call_env).

(** What [update_job_status] writes on a job that exists. *)
Lemma update_job_status_found env d job_id job st p err outs t :
  jobs d !! job_id = Some job ->
  exists job',
    ImageService.update_job_status env d job_id st p err outs t =
      {| users := users d; transactions := transactions d;
         jobs := <[job_id := job']> (jobs d) |} /\
    status job' = st /\
    progress job' =
      (if String.eqb st "completed" then 100
       else match p with Some x => x | None => progress job end) /\
    error_message job' = (if truthy_str err then err else error_message job) /\
    job_user_id job' = job_user_id job /\
    credits_used job' = credits_used job.
Proof.
  intros Hj. unfold ImageService.update_job_status. rewrite Hj.
  eexists. split; [reflexivity |]. simpl.
  repeat split.
  destruct (String.eqb st "completed"); simpl; [reflexivity |].
  destruct (String.eqb st "failed"); reflexivity.
Qed.

Lemma update_job_status_missing env d job_id st p err outs t :
  jobs d !! job_id = None ->
  ImageService.update_job_status env d job_id st p err outs t = d.
Proof.
  intros Hj. unfold ImageService.update_job_status. rewrite Hj. reflexivity.
Qed.

Lemma update_job_status_keeps_job env d job_id st p err outs t :
  is_Some (jobs d !! job_id) ->
  is_Some (jobs (ImageService.update_job_status env d job_id st p err outs t)
             !! job_id).
Proof.
  intros [job Hj].
  destruct (update_job_status_found env d job_id job st p err outs t Hj)
    as (job' & -> & _).
  simpl. rewrite lookup_insert_eq. eauto.
Qed.

(** [cancel_job] on a job of the caller whose status passes the guard:
    the job is rewritten with status [cancelled]; the status read back
    for the refund test is the one just written, so no refund is made. *)
Lemma cancel_job_passes_guard env d job_id user_id job :
  jobs d !! job_id = Some job ->
  job_user_id job = user_id ->
  Images.not_cancellable (status job) = false ->
  Images.cancel_job env d job_id user_id =
    ({| users := users d;
        transactions := transactions d;
        jobs :=
          <[job_id :=
             {| job_user_id := job_user_id job;
                operation := operation job;
                status := "cancelled";
                progress := progress job;
                credits_used := credits_used job;
                callback_url := callback_url job;
                error_message := error_message job;
                output_images := output_images job;
                processing_time_seconds := processing_time_seconds job;
                job_updated_at := utcnow env;
                started_at := started_at job;
                completed_at := completed_at job |}]> (jobs d) |},
     Images.Cancelled "Job cancelled successfully" job_id).
Proof.
  intros Hj Hu Hguard. unfold Images.cancel_job. rewrite Hj.
  rewrite <- Hu, String.eqb_refl. simpl. rewrite Hguard. reflexivity.
Qed.
End JobStoreFacts.

(** C2.  What [cancel_job] does on a queued job of the caller: it
    answers with the confirmation and the job becomes [cancelled], but
    the refund test reads the status it has just overwritten, so
    [refund_credits] is not called: the account and the ledger are as
    before, and the reserved credits are not returned. *)
Theorem C2_cancel_queued_makes_no_refund
    (env : call_env) (d : Database) (job_id user_id : string) (job : ProcessingJob) :
  jobs d !! job_id = Some job ->
  job_user_id job = user_id ->
  status job = "queued" ->
  let r := Images.cancel_job env d job_id user_id in
  r.2 = Images.Cancelled "Job cancelled successfully" job_id /\
  status <$> jobs r.1 !! job_id = Some "cancelled" /\
  users r.1 = users d /\
  transactions r.1 = transactions d.
Proof.
  intros Hj Hu Hst r. subst r.
  rewrite (cancel_job_passes_guard env d job_id user_id job Hj Hu)
    by (rewrite Hst; reflexivity).
  simpl. rewrite lookup_insert_eq. repeat split.
Qed.

Lemma C2_cancel_queued_witness :
  CreditService.get_user_credits
    (Images.cancel_job Sample.env1 (Sample.db_with_job "queued" 0) "job-1" "alice").1
    "alice" = Some 8 /\
  transactions
    (Images.cancel_job Sample.env1 (Sample.db_with_job "queued" 0) "job-1" "alice").1
    = [].
Proof.
  pose proof (C2_cancel_queued_makes_no_refund Sample.env1
                (Sample.db_with_job "queued" 0) "job-1" "alice"
                (Sample.job_with "queued" 0)) as H.
  destruct H as (_ & _ & Husers & Htx); [reflexivity | reflexivity | reflexivity |].
  unfold CreditService.get_user_credits. rewrite Husers, Htx.
  split; reflexivity.
Defined.

(** C6 (as amended).  [cancel_job] refuses only [completed], [failed]
    and [cancelled] jobs.  On a [processing] job of the caller it answers
    with the confirmation and rewrites the job with status [cancelled]
    (touching [updated_at] and nothing else); no refund is made, so the
    account and the ledger are unchanged. *)
Theorem C6_cancel_processing_is_accepted
    (env : call_env) (d : Database) (job_id user_id : string) (job : ProcessingJob) :
  jobs d !! job_id = Some job ->
  job_user_id job = user_id ->
  status job = "processing" ->
  let r := Images.cancel_job env d job_id user_id in
  r.2 = Images.Cancelled "Job cancelled successfully" job_id /\
  jobs r.1 !! job_id =
    Some {| job_user_id := job_user_id job;
            operation := operation job;
            status := "cancelled";
            progress := progress job;
            credits_used := credits_used job;
            callback_url := callback_url job;
            error_message := error_message job;
            output_images := output_images job;
            processing_time_seconds := processing_time_seconds job;
            job_updated_at := utcnow env;
            started_at := started_at job;
            completed_at := completed_at job |} /\
  users r.1 = users d /\
  transactions r.1 = transactions d.
Proof.
  intros Hj Hu Hst r. subst r.
  rewrite (cancel_job_passes_guard env d job_id user_id job Hj Hu)
    by (rewrite Hst; reflexivity).
  simpl. rewrite lookup_insert_eq. repeat split.
Qed.

Lemma C6_cancel_processing_witness :
  (Images.cancel_job Sample.env1 (Sample.db_with_job "processing" 40)
     "job-1" "alice").2 = Images.Cancelled "Job cancelled successfully" "job-1".
Proof.
  pose proof (C6_cancel_processing_is_accepted Sample.env1
                (Sample.db_with_job "processing" 40) "job-1" "alice"
                (Sample.job_with "processing" 40)) as H.
  destruct H as (H & _); [reflexivity | reflexivity | reflexivity |].
  exact H.
Defined.

(** C6, the claim as stated, fails: cancelling a [processing] job is not
    refused, and the job record changes. *)
Lemma C6_cancel_processing_not_refused :
  ~ Contract.cancel_refused Sample.env1 (Sample.db_with_job "processing" 40)
      "job-1" "alice".
Proof.
  intros [message H]. vm_compute in H. discriminate H.
Qed.

(** C5 (as amended).  [update_job_status] has no guard on the current
    status.  On a job that exists, whatever its status (terminal ones
    included), the delivered status replaces the stored one, and the
    progress becomes 100 when the delivered status is [completed], the
    delivered progress when one is given, and stays otherwise; accounts
    and ledger are untouched.  On a job that does not exist nothing
    changes.  No error is raised in either case. *)
Theorem C5_update_overwrites_whatever_the_status
    (env : call_env) (d : Database) (job_id st : string) (p : option Z)
    (err : option string) (outs : list string) (t : option Q) :
  let d' := ImageService.update_job_status env d job_id st p err outs t in
  users d' = users d /\
  transactions d' = transactions d /\
  match jobs d !! job_id with
  | Some job =>
    exists job',
      jobs d' !! job_id = Some job' /\
      status job' = st /\
      progress job' =
        (if String.eqb st "completed" then 100
         else match p with Some x => x | None => progress job end)
  | None => d' = d
  end.
Proof.
  intros d'. subst d'.
  destruct (jobs d !! job_id) as [job|] eqn:Hj.
  - destruct (update_job_status_found env d job_id job st p err outs t Hj)
      as (job' & -> & Hst & Hp & _).
    simpl. split; [reflexivity |]. split; [reflexivity |].
    exists job'. rewrite lookup_insert_eq. auto.
  - rewrite (update_job_status_missing env d job_id st p err outs t Hj).
    auto.
Qed.

(** C5, the claim as stated, fails: a late "processing, 50%" update
    delivered to a [completed] job at 100% is not dropped; the job goes
    back to [processing] at 50%. *)
Lemma C5_late_update_reopens_completed_job :
  Contract.terminal (status (Sample.job_with "completed" 100)) /\
  ~ Contract.update_dropped Sample.env1 (Sample.db_with_job "completed" 100)
      "job-1" "processing" (Some 50).
Proof.
  split; [left; reflexivity |].
  intros H.
  destruct (H (Sample.job_with "completed" 100)) as (job' & Hj & Hst & _);
    [reflexivity |].
  vm_compute in Hj. injection Hj as <-. discriminate Hst.
Qed.

(** C9.  [queue_processing_job]: when the broker takes the message the
    task is in flight and the session is untouched; when
    [process_images_task.delay] raises, nothing is enqueued and a job
    that exists is at once rewritten with status [failed] and the error
    "Failed to queue job: ..." carrying the message of the exception.
    Either way the job is not left [queued] without a task in flight. *)
Theorem C9_enqueue_failure_fails_the_job
    (env : call_env) (delay_error : option string) (w : World)
    (job_id : string) (rd : request_data) (job : ProcessingJob) :
  jobs (db w) !! job_id = Some job ->
  let w' := ImageService.queue_processing_job env delay_error w job_id rd in
  match delay_error with
  | None =>
    processing_tasks (broker w') = processing_tasks (broker w) ++ [(job_id, rd)] /\
    db w' = db w
  | Some e =>
    processing_tasks (broker w') = processing_tasks (broker w) /\
    exists job',
      jobs (db w') !! job_id = Some job' /\
      status job' = "failed" /\
      status job' <> "queued" /\
      error_message job' = Some ("Failed to queue job: " +:+ e)
  end.
Proof.
  intros Hj w'. subst w'. destruct delay_error as [e|]; simpl.
  - split; [reflexivity |].
    destruct (update_job_status_found env (db w) job_id job "failed" None
                (Some ("Failed to queue job: " +:+ e)) [] None Hj)
      as (job' & -> & Hst & _ & Herr & _).
    exists job'. simpl. rewrite lookup_insert_eq.
    split; [reflexivity |]. split; [exact Hst |].
    split; [rewrite Hst; discriminate |]. exact Herr.
  - split; reflexivity.
Qed.

Lemma C9_enqueue_failure_witness :
  exists job',
    jobs (db (ImageService.queue_processing_job Sample.env1
                (Some "Connection refused")
                {| db := Sample.db_with_job "queued" 0; broker := Sample.idle |}
                "job-1" Sample.request)) !! "job-1" = Some job' /\
    status job' = "failed" /\
    error_message job' = Some "Failed to queue job: Connection refused".
Proof.
  pose proof (C9_enqueue_failure_fails_the_job Sample.env1
                (Some "Connection refused")
                {| db := Sample.db_with_job "queued" 0; broker := Sample.idle |}
                "job-1" Sample.request (Sample.job_with "queued" 0)) as H.
  destruct H as (_ & job' & Hj & Hst & _ & Herr); [reflexivity |].
  exists job'. split; [exact Hj |]. split; [exact Hst | exact Herr].
Defined.

(** ** Worker *)

Section WorkerFacts.
Variable progress_pct : nat -> nat -> Z.
Implicit Types (d : Database) (env : call_env) (tr : ImageWorker.Transform).

Lemma process_each_keeps_job tr env job_id op ps total images :
  forall i processed d,
    is_Some (jobs d !! job_id) ->
    is_Some (jobs (ImageWorker.process_each progress_pct tr env job_id op ps
                     total i images processed d).1 !! job_id).
Proof.
  induction images as [|image rest IH]; intros i processed d Hj; simpl.
  - exact Hj.
  - destruct (ImageWorker.process_image tr image op ps) as [img|e]; simpl.
    + apply IH. apply update_job_status_keeps_job, Hj.
    + exact Hj.
Qed.

Lemma try_block_keeps_job tr env d job_id rd :
  is_Some (jobs d !! job_id) ->
  is_Some (jobs (ImageWorker.try_block progress_pct tr env d job_id rd).1 !! job_id).
Proof.
  intros Hj. unfold ImageWorker.try_block.
  destruct (ImageWorker.load_models tr) as [e|]; simpl; [exact Hj |].
  pose proof (process_each_keeps_job tr env job_id (rq_operation rd)
                (rq_parameters rd) (length (rq_images rd)) (rq_images rd) 0 []
                _ (update_job_status_keeps_job env d job_id "processing"
                     (Some 0) None [] None Hj)) as Hloop.
  destruct (ImageWorker.process_each _ _ _ _ _ _ _ _ _ _ _) as [d1 [imgs|e]];
    simpl in *; [| exact Hloop].
  destruct (ImageWorker.save_output_images tr job_id imgs) as [urls|e]; simpl;
    [| exact Hloop].
  apply update_job_status_keeps_job, Hloop.
Qed.

Lemma notify_appends b job_id url st :
  webhook_tasks (ImageWorker.notify b job_id url st) =
    webhook_tasks b ++ ImageWorker.notified job_id url st.
Proof.
  unfold ImageWorker.notify, ImageWorker.notified. destruct url as [u|]; simpl.
  - destruct (String.eqb u ""); simpl; [symmetry; apply app_nil_r | reflexivity].
  - symmetry. apply app_nil_r.
Qed.

(** The handler of a failed delivery, whatever [request.retries] is. *)
Lemma failed_delivery self tr env w job_id rd r :
  is_Some (jobs (db w) !! job_id) ->
  (ImageWorker.process_images_task progress_pct self tr env w job_id rd).2 =
    ImageWorker.Raised r ->
  let w' := (ImageWorker.process_images_task progress_pct self tr env w job_id rd).1 in
  (exists job',
     jobs (db w') !! job_id = Some job' /\
     status job' = "failed" /\
     error_message job' = Some ("Processing failed: " +:+ ImageWorker.retry_exc r)) /\
  webhook_tasks (broker w') =
    webhook_tasks (broker w) ++ ImageWorker.notified job_id (rq_callback_url rd) "failed" /\
  ImageWorker.retry_countdown r = 60 /\
  ImageWorker.retry_max_retries r = 3%nat /\
  ImageWorker.retry_request_retries r = ImageWorker.request_retries self.
Proof.
  intros Hj. unfold ImageWorker.process_images_task.
  pose proof (try_block_keeps_job tr env (db w) job_id rd Hj) as Hkept.
  destruct (ImageWorker.try_block progress_pct tr env (db w) job_id rd)
    as [d1 [[]|e]]; simpl in *; [discriminate |].
  intros [= <-]. simpl.
  destruct Hkept as [job1 Hj1].
  destruct (update_job_status_found env d1 job_id job1 "failed" None
              (Some ("Processing failed: " +:+ e)) [] None Hj1)
    as (job' & -> & Hst & _ & Herr & _).
  simpl. rewrite lookup_insert_eq, notify_appends.
  split; [exists job'; auto |]. repeat split.
Qed.
End WorkerFacts.

(** C7 (as amended).  The worker does not look at the number of retries
    left.  Every delivery of [process_images_task] that fails, on a job
    that exists, rewrites the job with status [failed] and the error
    "Processing failed: ..." of that attempt, enqueues one webhook
    notification with status [failed] when the request carries a
    non-empty callback URL (none otherwise), and only then asks the queue
    for a retry after 60 seconds with [max_retries = 3].  A job is thus
    marked failed and notified once per failed attempt, the first one
    included, not once when the attempts are exhausted. *)
Theorem C7_every_failed_attempt_fails_and_notifies
    (progress_pct : nat -> nat -> Z)
    (self : ImageWorker.TaskSelf) (tr : ImageWorker.Transform) (env : call_env)
    (w : World) (job_id : string) (rd : request_data) (r : ImageWorker.Retry) :
  is_Some (jobs (db w) !! job_id) ->
  (ImageWorker.process_images_task progress_pct self tr env w job_id rd).2 =
    ImageWorker.Raised r ->
  let w' := (ImageWorker.process_images_task progress_pct self tr env w job_id rd).1 in
  (exists job',
     jobs (db w') !! job_id = Some job' /\
     status job' = "failed" /\
     error_message job' = Some ("Processing failed: " +:+ ImageWorker.retry_exc r)) /\
  webhook_tasks (broker w') =
    webhook_tasks (broker w) ++
      match rq_callback_url rd with
      | Some u => if String.eqb u "" then [] else [(job_id, u, "failed")]
      | None => []
      end /\
  ImageWorker.retry_countdown r = 60 /\
  ImageWorker.retry_max_retries r = 3%nat.
Proof.
  intros Hj Hr w'.
  destruct (failed_delivery progress_pct self tr env w job_id rd r Hj Hr)
    as (Hjob & Hhooks & Hcd & Hmax & _).
  split; [exact Hjob |]. split; [exact Hhooks |]. split; assumption.
Qed.

Lemma C7_first_failure_witness :
  webhook_tasks
    (broker
       (ImageWorker.process_images_task Sample.pct
          {| ImageWorker.request_retries := 0 |} Sample.broken Sample.env1
          {| db := Sample.db_with_job "queued" 0; broker := Sample.idle |}
          "job-1" Sample.request).1) =
    [("job-1", "https://client.example/hook", "failed")].
Proof.
  pose proof (C7_every_failed_attempt_fails_and_notifies Sample.pct
                {| ImageWorker.request_retries := 0 |} Sample.broken Sample.env1
                {| db := Sample.db_with_job "queued" 0; broker := Sample.idle |}
                "job-1" Sample.request
                {| ImageWorker.retry_exc := "CUDA out of memory";
                   ImageWorker.retry_countdown := 60;
                   ImageWorker.retry_max_retries := 3;
                   ImageWorker.retry_request_retries := 0 |}) as H.
  destruct H as (_ & H & _).
  - exists (Sample.job_with "queued" 0). reflexivity.
  - reflexivity.
  - exact H.
Defined.

(** C7, the claim as stated, fails: on the first delivery
    ([request.retries = 0], three retries left) with a transform engine
    that raises, the job does not stay [processing] and the notifier is
    not left alone: the job is [failed] and a webhook is enqueued. *)
Lemma C7_first_failure_already_marks_failed :
  ~ Contract.failed_attempt_is_silent Sample.pct
      {| ImageWorker.request_retries := 0 |} Sample.broken Sample.env1
      {| db := Sample.db_with_job "queued" 0; broker := Sample.idle |}
      "job-1" Sample.request.
Proof.
  unfold Contract.failed_attempt_is_silent. intros H.
  destruct (H {| ImageWorker.retry_exc := "CUDA out of memory";
                 ImageWorker.retry_countdown := 60;
                 ImageWorker.retry_max_retries := 3;
                 ImageWorker.retry_request_retries := 0 |}) as [Hst _].
  - reflexivity.
  - simpl. lia.
  - vm_compute in Hst. discriminate Hst.
Qed.

(** Three failing deliveries in a row enqueue three [failed] webhooks. *)
Example three_failures_three_webhooks :
  webhook_tasks
    (broker
       (ImageWorker.deliveries Sample.pct 0
          [ (Sample.broken, Sample.env1); (Sample.broken, Sample.env2);
            (Sample.broken, Sample.env2) ]
          {| db := Sample.db_with_job "queued" 0; broker := Sample.idle |}
          "job-1" Sample.request)) =
    [ ("job-1", "https://client.example/hook", "failed");
      ("job-1", "https://client.example/hook", "failed");
      ("job-1", "https://client.example/hook", "failed") ].
Proof. vm_compute. reflexivity. Qed.

(** ** Cost estimation *)

Section CostFacts.
Variable float_str : Q -> string.
Variable table : gmap string Z.
Hypothesis table_pos : forall key c, table !! key = Some c -> 1 <= c.



(** On non-negative prices truncation toward zero is rounding down. *)
Lemma int_times_1_5_floor x : 0 <= x -> Py.int_times_1_5 x = x * 3 / 2.
Proof. intros Hx. unfold Py.int_times_1_5. apply Z.quot_div_nonneg; lia. Qed.

Lemma int_times_1_2_floor x : 0 <= x -> Py.int_times_1_2 x = x * 6 / 5.
Proof. intros Hx. unfold Py.int_times_1_2. apply Z.quot_div_nonneg; lia. Qed.



End CostFacts.

Lemma shipped_prices_positive :
  forall key c, Settings.credit_costs !! key = Some c -> 1 <= c.
Proof.
  intros key c. unfold Settings.credit_costs. simpl.
  rewrite !lookup_insert. repeat case_decide; rewrite ?lookup_empty;
    intros [= <-]; lia.
Qed.

Section CostReading.
Variable float_str : Q -> string.
Variable table : gmap string Z.





End CostReading.



(** No floor of its own: with a table that prices the medium quality at
    0, three enhanced images cost 0 credits. *)
Example zero_price_is_not_floored :
  CreditService.calculate_cost Sample.no_float {[ "enhance_medium" := 0 ]}
    "enhance" ∅ 3 = 0.
Proof. vm_compute. reflexivity. Qed.

(** The scenario of the specification: enhancing one image at medium
    quality costs 2 credits; four-fold upscaling of three images with 60
    steps costs 18; a non-numeric [steps] falls back to 2 per image. *)
Example cost_enhance_medium_one_image :
  CreditService.calculate_cost Sample.no_float Settings.credit_costs "enhance"
    {[ "quality" := Py.VStr "medium" ]} 1 = 2.
Proof. vm_compute. reflexivity. Qed.

Example cost_upscale_4x_high_steps :
  CreditService.calculate_cost Sample.no_float Settings.credit_costs "upscale"
    (<["upscale_factor" := Py.VInt 4]> {[ "steps" := Py.VInt 60 ]}) 3 = 18.
Proof. vm_compute. reflexivity. Qed.

Example cost_fallback_on_bad_steps :
  CreditService.calculate_cost Sample.no_float Settings.credit_costs "upscale"
    (<["upscale_factor" := Py.VInt 4]> {[ "steps" := Py.VNone ]}) 3 = 6.
Proof. vm_compute. reflexivity. Qed.

(** The scenario of the specification on the ledger: reserving 2 of 10
    credits leaves 8 and records the usage entry. *)
Example reserve_two_of_ten :
  let d := (CreditService.check_and_reserve_credits Sample.env1 Sample.db0 "alice" 2).1 in
  CreditService.get_user_credits d "alice" = Some 8 /\
  (fun t => (amount t, transaction_type t, balance_before t, balance_after t))
    <$> transactions d = [(-2, "usage", 10, 8)].
Proof. vm_compute. split; reflexivity. Qed.

(** * Further properties of the services *)

(** ** Credit service *)

(** X1.  On an account that does not exist, [check_and_reserve_credits],
    [refund_credits] and [add_credits] all return [False] and leave the
    session as it was; [get_user_credits] answers [None] and
    [check_user_credits] [False]. *)
Theorem missing_account_changes_nothing
    (env : call_env) (d : Database) (user_id : string) (c : Z)
    (reason : string) (pid pm : option string) :
  users d !! user_id = None ->
  CreditService.check_and_reserve_credits env d user_id c = (d, false) /\
  CreditService.refund_credits env d user_id c reason = (d, false) /\
  CreditService.add_credits env d user_id c pid pm = (d, false) /\
  CreditService.get_user_credits d user_id = None /\
  CreditService.check_user_credits d user_id c = false.
Proof.
  intros Hu.
  unfold CreditService.check_and_reserve_credits, CreditService.refund_credits,
    CreditService.add_credits, CreditService.get_user_credits,
    CreditService.check_user_credits.
  rewrite Hu. repeat split.
Qed.

Lemma missing_account_witness :
  CreditService.refund_credits Sample.env1 Sample.db0 "bob" 5 "goodwill"
    = (Sample.db0, false).
Proof.
  pose proof (missing_account_changes_nothing Sample.env1 Sample.db0 "bob" 5
                "goodwill" None None) as H.
  destruct H as (_ & H & _); [reflexivity |].
  exact H.
Defined.

(** X2.  [add_credits] on an existing account returns [True], credits
    the balance and [total_credits_purchased] by the amount, leaves
    [total_credits_used] alone, and appends one [purchase] entry with
    status [completed] whose description names the payment method, or
    "unknown" when none (or an empty one) is given. *)
Theorem add_credits_books_a_purchase
    (env : call_env) (d : Database) (user_id : string) (u : User) (c : Z)
    (pid pm : option string) :
  users d !! user_id = Some u ->
  let r := CreditService.add_credits env d user_id c pid pm in
  r.2 = true /\
  users r.1 !! user_id =
    Some {| credits_balance := credits_balance u + c;
            total_credits_purchased := total_credits_purchased u + c;
            total_credits_used := total_credits_used u;
            user_updated_at := utcnow env |} /\
  (forall other, other <> user_id -> users r.1 !! other = users d !! other) /\
  jobs r.1 = jobs d /\
  transactions r.1 =
    transactions d ++
      [ {| tx_id := uuid4 env; tx_user_id := user_id; amount := c;
           transaction_type := "purchase";
           description :=
             "Credits purchased via " +:+
               match pm with
               | Some m => if String.eqb m "" then "unknown" else m
               | None => "unknown"
               end;
           balance_before := credits_balance u;
           balance_after := credits_balance u + c;
           payment_id := pid; payment_method := pm;
           payment_status := Some "completed" |} ].
Proof.
  intros Hu r. subst r. unfold CreditService.add_credits. rewrite Hu. simpl.
  rewrite lookup_insert_eq.
  split; [reflexivity |]. split; [reflexivity |].
  split; [intros other Hne; apply lookup_insert_ne; congruence |].
  split; reflexivity.
Qed.

Lemma add_credits_witness :
  CreditService.get_user_credits
    (CreditService.add_credits Sample.env1 Sample.db0 "alice" 5 None (Some "test")).1
    "alice" = Some 15.
Proof.
  pose proof (add_credits_books_a_purchase Sample.env1 Sample.db0 "alice"
                Sample.alice 5 None (Some "test")) as H.
  destruct H as (_ & H & _); [reflexivity |].
  unfold CreditService.get_user_credits. rewrite H. reflexivity.
Defined.

(** X3.  [check_user_credits] answers exactly what a reservation of the
    same amount would return: it is [True] if and only if
    [check_and_reserve_credits] succeeds on the same session. *)
Theorem check_user_credits_predicts_reserve
    (env : call_env) (d : Database) (user_id : string) (c : Z) :
  CreditService.check_user_credits d user_id c =
    (CreditService.check_and_reserve_credits env d user_id c).2.
Proof.
  unfold CreditService.check_user_credits, CreditService.check_and_reserve_credits.
  destruct (users d !! user_id) as [u|]; [| reflexivity].
  rewrite Z.geb_leb.
  destruct (credits_balance u <? c) eqn:Hlt; simpl.
  - apply Z.ltb_lt in Hlt. apply Z.leb_gt. exact Hlt.
  - apply Z.ltb_ge in Hlt. apply Z.leb_le. exact Hlt.
Qed.

(** X4.  A reservation that succeeds, followed by a refund of the same
    amount, gives the account back its balance and its
    [total_credits_used]; the ledger has grown by the usage entry and the
    refund entry, whose amounts cancel. *)
Theorem reserve_then_refund_restores
    (env env' : call_env) (d : Database) (user_id : string) (u : User)
    (c : Z) (reason : string) :
  users d !! user_id = Some u ->
  c <= credits_balance u ->
  let d1 := (CreditService.check_and_reserve_credits env d user_id c).1 in
  let d2 := (CreditService.refund_credits env' d1 user_id c reason).1 in
  users d2 !! user_id =
    Some {| credits_balance := credits_balance u;
            total_credits_purchased := total_credits_purchased u;
            total_credits_used := total_credits_used u;
            user_updated_at := utcnow env' |} /\
  (exists usage refund,
     transactions d2 = transactions d ++ [usage; refund] /\
     transaction_type usage = "usage" /\ amount usage = - c /\
     transaction_type refund = "refund" /\ amount refund = c /\
     balance_before usage = credits_balance u /\
     balance_after refund = credits_balance u).
Proof.
  intros Hu Hc d1 d2. subst d2 d1.
  rewrite (reserve_unfold env d user_id u c Hu).
  assert (Hfits : (credits_balance u <? c) = false) by (apply Z.ltb_ge; exact Hc).
  rewrite Hfits. simpl.
  erewrite refund_unfold by (simpl; apply lookup_insert_eq). simpl.
  rewrite lookup_insert_eq. split.
  - f_equal. f_equal; lia.
  - rewrite <- app_assoc. simpl. eexists _, _.
    split; [reflexivity |]. simpl. repeat split; lia.
Qed.

Lemma reserve_then_refund_witness :
  CreditService.get_user_credits
    (CreditService.refund_credits Sample.env2
       (CreditService.check_and_reserve_credits Sample.env1 Sample.db0 "alice" 2).1
       "alice" 2 "Job job-1 cancelled").1 "alice" = Some 10.
Proof.
  pose proof (reserve_then_refund_restores Sample.env1 Sample.env2 Sample.db0
                "alice" Sample.alice 2 "Job job-1 cancelled") as H.
  destruct H as (H & _); [reflexivity | simpl; lia |].
  unfold CreditService.get_user_credits. rewrite H. reflexivity.
Defined.

Section LedgerRuns.
Implicit Types (d : Database) (u : User) (env : call_env).

Lemma net_amount_app user_id txs txs' :
  Ledger.net_amount user_id (txs ++ txs') =
    Ledger.net_amount user_id txs + Ledger.net_amount user_id txs'.
Proof.
  induction txs as [|t txs IH]; simpl; [reflexivity |].
  rewrite IH. destruct (String.eqb _ _); lia.
Qed.

(** What one appended row means for the account [user_id]. *)
Ltac appended_row Hu Hv :=
  simpl; rewrite lookup_insert; case_decide;
  [ subst; rewrite Hu in Hv; injection Hv as <-;
    eexists [_], _; split; [reflexivity |]; split; [reflexivity |];
    split; [repeat constructor; unfold Ledger.entry_adds_up; simpl; lia |];
    simpl; rewrite String.eqb_refl; lia
  | eexists [_], _; split; [reflexivity |]; split; [exact Hu |];
    split; [repeat constructor; unfold Ledger.entry_adds_up; simpl; lia |];
    simpl;
    match goal with
    | |- context [String.eqb ?a ?b] =>
      destruct (String.eqb_spec a b); [congruence | lia]
    end ].

Lemma step_reconciles env o d user_id u :
  users d !! user_id = Some u ->
  exists new u',
    transactions (Ledger.step env o d) = transactions d ++ new /\
    users (Ledger.step env o d) !! user_id = Some u' /\
    Forall Ledger.entry_adds_up new /\
    credits_balance u' = credits_balance u + Ledger.net_amount user_id new.
Proof.
  intros Hu.
  assert (Hnone : exists new u',
             transactions d = transactions d ++ new /\
             users d !! user_id = Some u' /\
             Forall Ledger.entry_adds_up new /\
             credits_balance u' = credits_balance u + Ledger.net_amount user_id new).
  { exists [], u. rewrite app_nil_r. simpl. repeat split; [exact Hu | constructor | lia]. }
  destruct o as [w c | w c reason | w c pid pm]; simpl.
  - unfold CreditService.check_and_reserve_credits.
    destruct (users d !! w) as [v|] eqn:Hv; [| exact Hnone].
    destruct (credits_balance v <? c); [exact Hnone |].
    appended_row Hu Hv.
  - unfold CreditService.refund_credits.
    destruct (users d !! w) as [v|] eqn:Hv; [| exact Hnone].
    appended_row Hu Hv.
  - unfold CreditService.add_credits.
    destruct (users d !! w) as [v|] eqn:Hv; [| exact Hnone].
    appended_row Hu Hv.
Qed.

Lemma step_frame env o d :
  jobs (Ledger.step env o d) = jobs d /\
  forall user_id,
    Ledger.account_of o <> user_id ->
    users (Ledger.step env o d) !! user_id = users d !! user_id.
Proof.
  destruct o as [w c | w c reason | w c pid pm]; simpl.
  - unfold CreditService.check_and_reserve_credits.
    destruct (users d !! w) as [v|]; [| auto].
    destruct (credits_balance v <? c); [auto |]. simpl.
    split; [reflexivity |]. intros k Hk. apply lookup_insert_ne, Hk.
  - unfold CreditService.refund_credits.
    destruct (users d !! w) as [v|]; [| auto]. simpl.
    split; [reflexivity |]. intros k Hk. apply lookup_insert_ne, Hk.
  - unfold CreditService.add_credits.
    destruct (users d !! w) as [v|]; [| auto]. simpl.
    split; [reflexivity |]. intros k Hk. apply lookup_insert_ne, Hk.
Qed.
End LedgerRuns.

(** X5.  The ledger reconciles with the cached balance.  After any
    sequence of Reserve, Refund and Purchase calls the ledger is the old
    ledger followed by the new entries (nothing is rewritten or removed),
    every new entry satisfies [balance_after = balance_before + amount],
    and the balance of every account that existed has moved by exactly
    the sum of the signed amounts of the new entries of that account. *)
Theorem ledger_run_reconciles
    (ops : list (call_env * Ledger.op)) (d : Database) (user_id : string) (u : User) :
  users d !! user_id = Some u ->
  exists new u',
    transactions (Ledger.run ops d) = transactions d ++ new /\
    users (Ledger.run ops d) !! user_id = Some u' /\
    Forall Ledger.entry_adds_up new /\
    credits_balance u' = credits_balance u + Ledger.net_amount user_id new.
Proof.
  revert d u. induction ops as [|[env o] ops IH]; intros d u Hu; simpl.
  - exists [], u. rewrite app_nil_r. simpl.
    repeat split; [exact Hu | constructor | lia].
  - destruct (step_reconciles env o d user_id u Hu)
      as (new1 & u1 & Htx1 & Hu1 & Hok1 & Hbal1).
    destruct (IH _ u1 Hu1) as (new2 & u2 & Htx2 & Hu2 & Hok2 & Hbal2).
    exists (new1 ++ new2), u2.
    split; [rewrite Htx2, Htx1, app_assoc; reflexivity |].
    split; [exact Hu2 |].
    split; [apply Forall_app; split; assumption |].
    rewrite net_amount_app. lia.
Qed.

Lemma ledger_run_reconciles_witness :
  exists new u',
    transactions
      (Ledger.run
         [ (Sample.env1, Ledger.Reserve "alice" 2);
           (Sample.env2, Ledger.Purchase "alice" 5 None (Some "test")) ]
         Sample.db0) = transactions Sample.db0 ++ new /\
    users
      (Ledger.run
         [ (Sample.env1, Ledger.Reserve "alice" 2);
           (Sample.env2, Ledger.Purchase "alice" 5 None (Some "test")) ]
         Sample.db0) !! "alice" = Some u' /\
    Forall Ledger.entry_adds_up new /\
    credits_balance u' = credits_balance Sample.alice + Ledger.net_amount "alice" new.
Proof.
  apply (ledger_run_reconciles _ Sample.db0 "alice" Sample.alice).
  reflexivity.
Defined.

(** X6.  Ledger operations act on one account only: a sequence of calls
    none of which is addressed to an account leaves that account's row as
    it was, and no sequence of ledger calls touches the job table. *)
Theorem ledger_run_frame
    (ops : list (call_env * Ledger.op)) (d : Database) (user_id : string) :
  Forall (fun eo => Ledger.account_of eo.2 <> user_id) ops ->
  users (Ledger.run ops d) !! user_id = users d !! user_id /\
  jobs (Ledger.run ops d) = jobs d.
Proof.
  revert d. induction ops as [|[env o] ops IH]; intros d Hall; simpl.
  - split; reflexivity.
  - apply Forall_cons in Hall as [Ho Hall]. simpl in Ho.
    destruct (step_frame env o d) as [Hjobs Husers].
    destruct (IH (Ledger.step env o d) Hall) as [IHu IHj].
    split; [rewrite IHu; apply Husers, Ho | rewrite IHj; exact Hjobs].
Qed.

Lemma ledger_run_frame_witness :
  users
    (Ledger.run
       [ (Sample.env1, Ledger.Reserve "alice" 2);
         (Sample.env2, Ledger.Refund "alice" 2 "Job job-1 cancelled") ]
       (Sample.db_with_job "queued" 0)) !! "bob" =
    users (Sample.db_with_job "queued" 0) !! "bob" /\
  jobs
    (Ledger.run
       [ (Sample.env1, Ledger.Reserve "alice" 2);
         (Sample.env2, Ledger.Refund "alice" 2 "Job job-1 cancelled") ]
       (Sample.db_with_job "queued" 0)) = jobs (Sample.db_with_job "queued" 0).
Proof.
  apply ledger_run_frame.
  repeat constructor; simpl; discriminate.
Defined.

Section HistoryFacts.
Variable created_at : CreditTransaction -> Z.

#[local] Instance newer_first_trans :
  Transitive (CreditService.newer_first created_at).
Proof. intros t1 t2 t3. unfold CreditService.newer_first. lia. Qed.

#[local] Instance newer_first_total :
  Total (CreditService.newer_first created_at).
Proof. intros t1 t2. unfold CreditService.newer_first. lia. Qed.

(** The whole history of an account, as the query orders it. *)
Lemma history_sorted (txs : list CreditTransaction) :
  StronglySorted (CreditService.newer_first created_at)
    (merge_sort (CreditService.newer_first created_at) txs).
Proof. apply StronglySorted_merge_sort; apply _. Qed.

Lemma page_sorted (l : list CreditTransaction) (limit offset : nat) :
  StronglySorted (CreditService.newer_first created_at) l ->
  StronglySorted (CreditService.newer_first created_at) (take limit (drop offset l)).
Proof.
  intros Hl.
  rewrite <- (firstn_skipn offset l) in Hl.
  apply StronglySorted_app_1_r in Hl.
  rewrite <- (firstn_skipn limit (drop offset l)) in Hl.
  apply StronglySorted_app_1_l in Hl. exact Hl.
Qed.
End HistoryFacts.

(** X7.  [get_user_transactions] pages through the history of one
    account, for a limit and an offset that are not negative.  Read in
    one page, the history is all the rows of the account in the ledger,
    each once.  Every page is ordered by [created_at], newest first; it
    holds [limit] rows, or what is left of the history after [offset]
    rows when that is less; and the page that follows continues it
    without gap or overlap: the page of [limit] rows at [offset] followed
    by the page of [limit'] rows at [offset + limit] is the page of
    [limit + limit'] rows at [offset]. *)
Theorem get_user_transactions_pages
    (created_at : CreditTransaction -> Z)
    (d : Database) (user_id : string) (limit limit' offset : nat) :
  let history := filter (fun t => tx_user_id t = user_id) (transactions d) in
  let page := CreditService.get_user_transactions created_at d user_id in
  page (length history) 0%nat ≡ₚ history /\
  StronglySorted (fun t t' => created_at t' <= created_at t) (page limit offset) /\
  length (page limit offset) = (limit `min` (length history - offset))%nat /\
  page limit offset ++ page limit' (offset + limit)%nat =
    page (limit + limit')%nat offset.
Proof.
  intros history page. subst page. unfold CreditService.get_user_transactions.
  fold history.
  pose proof (merge_sort_Permutation (CreditService.newer_first created_at) history)
    as Hperm.
  pose proof (Permutation_length Hperm) as Hlen.
  split; [| split; [| split]].
  - rewrite drop_0, take_ge by lia. exact Hperm.
  - apply page_sorted, history_sorted.
  - rewrite length_take, length_drop, Hlen. reflexivity.
  - rewrite <- drop_drop. apply take_take_drop.
Qed.

(** X8.  The history shows the newest entry first: when the refund entry
    just written to an existing account carries a [created_at] later than
    that of every entry the account already had, it is the first row of
    the first page of the account's history. *)
Theorem refund_heads_the_history
    (created_at : CreditTransaction -> Z)
    (env : call_env) (d : Database) (user_id : string) (u : User)
    (c : Z) (reason : string) (limit : nat) :
  users d !! user_id = Some u ->
  let entry :=
    {| tx_id := uuid4 env; tx_user_id := user_id; amount := c;
       transaction_type := "refund"; description := reason;
       balance_before := credits_balance u;
       balance_after := credits_balance u + c;
       payment_id := None; payment_method := None;
       payment_status := None |} in
  (forall t, t ∈ transactions d -> tx_user_id t = user_id ->
     created_at t < created_at entry) ->
  head
    (CreditService.get_user_transactions created_at
       (CreditService.refund_credits env d user_id c reason).1 user_id (S limit) 0)
    = Some entry.
Proof.
  intros Hu entry Hlater. rewrite (refund_unfold env d user_id u c reason Hu).
  unfold CreditService.get_user_transactions. simpl transactions. fold entry.
  rewrite filter_app, filter_cons_True by reflexivity. rewrite filter_nil.
  set (old := filter (fun t => tx_user_id t = user_id) (transactions d)).
  pose proof (merge_sort_Permutation (CreditService.newer_first created_at)
                (old ++ [entry])) as Hperm.
  pose proof (history_sorted created_at (old ++ [entry])) as Hsorted.
  destruct (merge_sort (CreditService.newer_first created_at) (old ++ [entry]))
    as [|first rest].
  - apply Permutation_length in Hperm. rewrite length_app in Hperm.
    simpl in Hperm. lia.
  - simpl. f_equal.
    assert (Hentry : entry ∈ first :: rest).
    { rewrite Hperm. apply elem_of_app. right. apply list_elem_of_singleton.
      reflexivity. }
    assert (Hfirst : first ∈ old ++ [entry]).
    { rewrite <- Hperm. apply list_elem_of_here. }
    apply elem_of_app in Hfirst as [Hold | Hnew].
    + exfalso. apply list_elem_of_filter in Hold as [Hown Hin].
      pose proof (Hlater first Hin Hown) as Hlt.
      apply elem_of_cons in Hentry as [Heq | Hrest].
      * rewrite Heq in Hlt. lia.
      * apply StronglySorted_cons in Hsorted as [Hall _].
        rewrite Forall_forall in Hall. specialize (Hall entry Hrest).
        unfold CreditService.newer_first in Hall. lia.
    + apply list_elem_of_singleton in Hnew. exact Hnew.
Qed.

Lemma refund_heads_the_history_witness :
  amount <$>
    head
      (CreditService.get_user_transactions (fun t => Z.of_nat (String.length (description t)))
         (CreditService.refund_credits Sample.env2
            (CreditService.refund_credits Sample.env1 Sample.db0 "alice" 1 "first").1
            "alice" 5 "goodwill").1
         "alice" 1 0) = Some 5.
Proof.
  rewrite (refund_heads_the_history (fun t => Z.of_nat (String.length (description t)))
             Sample.env2
             (CreditService.refund_credits Sample.env1 Sample.db0 "alice" 1 "first").1
             "alice"
             {| credits_balance := 11; total_credits_purchased := 10;
                total_credits_used := -1; user_updated_at := 1 |}
             5 "goodwill" 0).
  - reflexivity.
  - reflexivity.
  - intros t Ht _. apply list_elem_of_singleton in Ht. subst t.
    vm_compute. reflexivity.
Defined.

(** ** Job store and endpoints *)

Section JobUpdates.
Implicit Types (d : Database) (job : ProcessingJob) (env : call_env).

Lemma update_job_status_row env d job_id job st p err outs t :
  jobs d !! job_id = Some job ->
  exists job',
    jobs (ImageService.update_job_status env d job_id st p err outs t) !! job_id
      = Some job' /\
    status job' = st /\
    progress job' =
      (if String.eqb st "completed" then 100
       else match p with Some x => x | None => progress job end) /\
    job_user_id job' = job_user_id job /\
    operation job' = operation job /\
    credits_used job' = credits_used job /\
    callback_url job' = callback_url job /\
    error_message job' = (if truthy_str err then err else error_message job) /\
    output_images job' = (if truthy_list outs then outs else output_images job) /\
    processing_time_seconds job' =
      (if truthy_float t then t else processing_time_seconds job) /\
    job_updated_at job' = utcnow env /\
    started_at job' =
      (if String.eqb st "processing" && ImageService.is_none (started_at job)
       then Some (utcnow env) else started_at job) /\
    completed_at job' =
      (if String.eqb st "completed" || String.eqb st "failed"
       then Some (utcnow env) else completed_at job).
Proof.
  intros Hj. unfold ImageService.update_job_status. rewrite Hj. simpl.
  rewrite lookup_insert_eq. eexists. split; [reflexivity |]. simpl.
  repeat split.
  destruct (String.eqb st "completed"); simpl; [reflexivity |].
  destruct (String.eqb st "failed"); reflexivity.
Qed.

Lemma update_job_status_ledger env d job_id st p err outs t :
  users (ImageService.update_job_status env d job_id st p err outs t) = users d /\
  transactions (ImageService.update_job_status env d job_id st p err outs t)
    = transactions d.
Proof.
  unfold ImageService.update_job_status.
  destruct (jobs d !! job_id); split; reflexivity.
Qed.

Lemma update_job_status_other env d job_id other st p err outs t :
  other <> job_id ->
  jobs (ImageService.update_job_status env d job_id st p err outs t) !! other
    = jobs d !! other.
Proof.
  intros Hne. unfold ImageService.update_job_status.
  destruct (jobs d !! job_id); [| reflexivity]. simpl.
  apply lookup_insert_ne. congruence.
Qed.
End JobUpdates.

(** X9.  The timestamps [update_job_status] keeps.  [started_at], once
    set, is never changed; it is set, to the time of the call, by the
    first update to [processing] and by no other update.
    [completed_at] is stamped by every update to [completed] or [failed]
    and kept by every other update, an update to [cancelled] included. *)
Theorem update_job_status_timestamps
    (env : call_env) (d : Database) (job_id st : string) (job : ProcessingJob)
    (p : option Z) (err : option string) (outs : list string) (t : option Q) :
  jobs d !! job_id = Some job ->
  exists job',
    jobs (ImageService.update_job_status env d job_id st p err outs t) !! job_id
      = Some job' /\
    (forall s, started_at job = Some s -> started_at job' = Some s) /\
    (started_at job = None ->
       (st = "processing" -> started_at job' = Some (utcnow env)) /\
       (st <> "processing" -> started_at job' = None)) /\
    (st = "completed" \/ st = "failed" -> completed_at job' = Some (utcnow env)) /\
    (st <> "completed" -> st <> "failed" -> completed_at job' = completed_at job).
Proof.
  intros Hj.
  destruct (update_job_status_row env d job_id job st p err outs t Hj)
    as (job' & Hj' & _ & _ & _ & _ & _ & _ & _ & _ & _ & _ & Hs & Hc).
  exists job'. split; [exact Hj' |]. rewrite Hs, Hc.
  split; [| split; [| split]].
  - intros s Hsome. rewrite Hsome. simpl. rewrite andb_false_r. reflexivity.
  - intros Hnone. rewrite Hnone. simpl. rewrite andb_true_r. split.
    + intros ->. reflexivity.
    + intros Hne. destruct (String.eqb_spec st "processing"); [contradiction | reflexivity].
  - intros [-> | ->]; reflexivity.
  - intros Hc1 Hc2.
    destruct (String.eqb_spec st "completed"); [contradiction |].
    destruct (String.eqb_spec st "failed"); [contradiction | reflexivity].
Qed.

Lemma update_job_status_timestamps_witness :
  exists job',
    jobs (ImageService.update_job_status Sample.env2
            (ImageService.update_job_status Sample.env1
               (Sample.db_with_job "queued" 0) "job-1" "processing" (Some 0)
               None [] None)
            "job-1" "processing" (Some 45) None [] None) !! "job-1" = Some job' /\
    started_at job' = Some 1.
Proof.
  destruct (update_job_status_timestamps Sample.env2
              (ImageService.update_job_status Sample.env1
                 (Sample.db_with_job "queued" 0) "job-1" "processing" (Some 0)
                 None [] None)
              "job-1" "processing"
              {| job_user_id := "alice"; operation := "enhance";
                 status := "processing"; progress := 0; credits_used := 2;
                 callback_url := Some "https://client.example/hook";
                 error_message := None; output_images := [];
                 processing_time_seconds := None; job_updated_at := 1;
                 started_at := Some 1; completed_at := None |}
              (Some 45) None [] None) as (job' & Hj & Hkeep & _).
  - reflexivity.
  - exists job'. split; [exact Hj |]. apply Hkeep. reflexivity.
Defined.

(** X10.  What [update_job_status] never does.  It leaves every other
    job, the accounts and the ledger alone; on the job it updates it
    never changes the owner, the operation, the reserved credits or the
    callback URL; and an update that carries no error message (none, or
    an empty one), no output list or no processing time keeps the stored
    one, so a stored error outlives later updates. *)
Theorem update_job_status_preserves
    (env : call_env) (d : Database) (job_id st : string) (job : ProcessingJob)
    (p : option Z) (err : option string) (outs : list string) (t : option Q) :
  jobs d !! job_id = Some job ->
  let d' := ImageService.update_job_status env d job_id st p err outs t in
  users d' = users d /\
  transactions d' = transactions d /\
  (forall other, other <> job_id -> jobs d' !! other = jobs d !! other) /\
  exists job',
    jobs d' !! job_id = Some job' /\
    job_user_id job' = job_user_id job /\
    operation job' = operation job /\
    credits_used job' = credits_used job /\
    callback_url job' = callback_url job /\
    (err = None \/ err = Some "" -> error_message job' = error_message job) /\
    (outs = [] -> output_images job' = output_images job) /\
    (t = None -> processing_time_seconds job' = processing_time_seconds job).
Proof.
  intros Hj d'. subst d'.
  destruct (update_job_status_ledger env d job_id st p err outs t) as [Hu Ht].
  split; [exact Hu |]. split; [exact Ht |].
  split; [intros other Hne; apply update_job_status_other, Hne |].
  destruct (update_job_status_row env d job_id job st p err outs t Hj)
    as (job' & Hj' & _ & _ & Hown & Hop & Hcr & Hcb & He & Ho & Htime & _).
  exists job'. split; [exact Hj' |].
  split; [exact Hown |]. split; [exact Hop |]. split; [exact Hcr |].
  split; [exact Hcb |].
  split; [intros [-> | ->]; exact He |].
  split; [intros ->; exact Ho | intros ->; exact Htime].
Qed.

Lemma update_job_status_preserves_witness :
  users (ImageService.update_job_status Sample.env1 (Sample.db_with_job "queued" 0)
           "job-1" "processing" (Some 0) None [] None)
    = users (Sample.db_with_job "queued" 0).
Proof.
  destruct (update_job_status_preserves Sample.env1 (Sample.db_with_job "queued" 0)
              "job-1" "processing" (Sample.job_with "queued" 0) (Some 0) None []
              None) as (H & _).
  - reflexivity.
  - exact H.
Defined.

(** X11.  Reads and cancellation are scoped to the owner without leaking
    existence: for a job id that belongs to another account,
    [cancel_job], [get_job_status] and [download_result] give the very
    answer they give for an id that does not exist (the not-found error
    carrying the id), and [cancel_job] changes nothing. *)
Theorem foreign_job_looks_missing
    (env : call_env) (is_job_status : string -> bool)
    (storage_path : string) (path_join : list string -> string)
    (file_exists : string -> bool)
    (d : Database) (job_id user_id : string) (image_index : Z) :
  match jobs d !! job_id with
  | Some job => job_user_id job <> user_id
  | None => True
  end ->
  Images.cancel_job env d job_id user_id = (d, Images.JobNotFoundError job_id) /\
  Images.get_job_status is_job_status d job_id user_id
    = Images.StatusNotFound job_id /\
  Images.download_result storage_path path_join file_exists d job_id image_index
    user_id = Images.DownloadNotFound job_id.
Proof.
  intros Hforeign.
  unfold Images.cancel_job, Images.get_job_status, Images.download_result.
  destruct (jobs d !! job_id) as [job|]; [| repeat split].
  destruct (String.eqb_spec (job_user_id job) user_id); [contradiction |].
  repeat split.
Qed.

Lemma foreign_job_looks_missing_witness :
  Images.cancel_job Sample.env1 (Sample.db_with_job "queued" 0) "job-1" "bob"
    = (Sample.db_with_job "queued" 0, Images.JobNotFoundError "job-1").
Proof.
  destruct (foreign_job_looks_missing Sample.env1 (fun _ => true) "/app/storage"
              (fun parts => String.concat "/" parts) (fun _ => true)
              (Sample.db_with_job "queued" 0) "job-1" "bob" 0)
    as (H & _).
  - vm_compute. intros Heq. discriminate Heq.
  - exact H.
Defined.

(** The guard of [cancel_job] on a terminal status. *)
Lemma cancel_job_guard_refuses
    (env : call_env) (d : Database) (job_id user_id : string) (job : ProcessingJob) :
  jobs d !! job_id = Some job ->
  job_user_id job = user_id ->
  status job = "completed" \/ status job = "failed" \/ status job = "cancelled" ->
  Images.cancel_job env d job_id user_id =
    (d, Images.ImageProcessingError
          ("Cannot cancel job with status: " +:+ status job)).
Proof.
  intros Hj Hown Hst. unfold Images.cancel_job. rewrite Hj.
  rewrite <- Hown, String.eqb_refl. simpl.
  assert (Hguard : Images.not_cancellable (status job) = true).
  { unfold Images.not_cancellable. destruct Hst as [-> | [-> | ->]]; reflexivity. }
  rewrite Hguard. reflexivity.
Qed.

(** X12.  [cancel_job] refuses a job of the caller that is [completed],
    [failed] or [cancelled] with "Cannot cancel job with status: ..."
    naming the status, and changes nothing. *)
Theorem cancel_job_refuses_terminal
    (env : call_env) (d : Database) (job_id user_id : string) (job : ProcessingJob) :
  jobs d !! job_id = Some job ->
  job_user_id job = user_id ->
  status job = "completed" \/ status job = "failed" \/ status job = "cancelled" ->
  Images.cancel_job env d job_id user_id =
    (d, Images.ImageProcessingError
          ("Cannot cancel job with status: " +:+ status job)).
Proof. exact (cancel_job_guard_refuses env d job_id user_id job). Qed.

Lemma cancel_job_refuses_terminal_witness :
  Images.cancel_job Sample.env1 (Sample.db_with_job "completed" 100) "job-1" "alice"
    = (Sample.db_with_job "completed" 100,
       Images.ImageProcessingError "Cannot cancel job with status: completed").
Proof.
  apply (cancel_job_refuses_terminal Sample.env1 (Sample.db_with_job "completed" 100)
           "job-1" "alice" (Sample.job_with "completed" 100)).
  - reflexivity.
  - reflexivity.
  - left. reflexivity.
Defined.

(** X13.  Cancelling twice in a row: whenever [cancel_job] answers with
    the confirmation, calling it again on the session it left, with no
    update to the job in between, is refused with
    "Cannot cancel job with status: cancelled" and changes nothing. *)
Theorem second_cancel_in_a_row_is_refused
    (env env' : call_env) (d : Database) (job_id user_id : string) :
  (Images.cancel_job env d job_id user_id).2
    = Images.Cancelled "Job cancelled successfully" job_id ->
  let d1 := (Images.cancel_job env d job_id user_id).1 in
  Images.cancel_job env' d1 job_id user_id =
    (d1, Images.ImageProcessingError "Cannot cancel job with status: cancelled").
Proof.
  unfold Images.cancel_job at 1 2.
  destruct (jobs d !! job_id) as [job|] eqn:Hj; [| discriminate].
  destruct (String.eqb_spec (job_user_id job) user_id) as [Hown|]; [| discriminate].
  simpl. destruct (Images.not_cancellable (status job)); [discriminate |].
  simpl. intros _.
  match goal with
  | |- context [<[job_id := ?cancelled]> (jobs d)] =>
    rewrite (cancel_job_guard_refuses env' _ job_id user_id cancelled)
  end.
  - reflexivity.
  - simpl. apply lookup_insert_eq.
  - exact Hown.
  - right. right. reflexivity.
Qed.

Lemma second_cancel_in_a_row_witness :
  (Images.cancel_job Sample.env2
     (Images.cancel_job Sample.env1 (Sample.db_with_job "queued" 0) "job-1" "alice").1
     "job-1" "alice").2
    = Images.ImageProcessingError "Cannot cancel job with status: cancelled".
Proof.
  rewrite (second_cancel_in_a_row_is_refused Sample.env1 Sample.env2
             (Sample.db_with_job "queued" 0) "job-1" "alice"); reflexivity.
Defined.


(** ** Admission *)

Lemma queue_processing_job_ledger
    (env : call_env) (delay_error : option string) (w : World)
    (job_id : string) (rd : request_data) :
  users (db (ImageService.queue_processing_job env delay_error w job_id rd))
    = users (db w) /\
  transactions (db (ImageService.queue_processing_job env delay_error w job_id rd))
    = transactions (db w).
Proof.
  unfold ImageService.queue_processing_job.
  destruct delay_error as [e|]; simpl; [| split; reflexivity].
  apply update_job_status_ledger.
Qed.

(** X15.  [process_images] refuses a request the account cannot pay
    for, before anything is written: when the cost of the request
    exceeds the balance, the answer is the insufficient-credits error
    carrying the cost and the balance, and the accounts, the ledger, the
    job table and the queues are all unchanged; no job is created. *)
Theorem process_images_refuses_without_funds
    (float_str : Q -> string) (credit_costs : gmap string Z)
    (estimate : nat -> string -> gmap string Py.value -> Z)
    (env_tx env_job : call_env) (delay_error : option string)
    (w : World) (user_id : string) (user : User) (rq : request_data) :
  users (db w) !! user_id = Some user ->
  credits_balance user <
    CreditService.calculate_cost float_str credit_costs (rq_operation rq)
      (rq_parameters rq) (Z.of_nat (length (rq_images rq))) ->
  Images.process_images float_str credit_costs estimate env_tx env_job delay_error
    w user_id user rq =
    (w, Images.InsufficientCreditsError
          (CreditService.calculate_cost float_str credit_costs (rq_operation rq)
             (rq_parameters rq) (Z.of_nat (length (rq_images rq))))
          (credits_balance user)).
Proof.
  intros Hu Hshort. unfold Images.process_images.
  rewrite (reserve_unfold env_tx (db w) user_id user _ Hu).
  apply Z.ltb_lt in Hshort. rewrite Hshort. reflexivity.
Qed.

Lemma process_images_refuses_witness :
  (Images.process_images Sample.no_float Settings.credit_costs
     (fun _ _ _ => 35) Sample.env1 Sample.env2 None
     {| db := Sample.db0; broker := Sample.idle |} "alice" Sample.alice
     {| rq_images := ["a"; "b"; "c"]; rq_operation := "upscale";
        rq_parameters := {[ "upscale_factor" := Py.VInt 4 ]};
        rq_callback_url := None |}).2
    = Images.InsufficientCreditsError 12 10.
Proof.
  rewrite (process_images_refuses_without_funds Sample.no_float Settings.credit_costs
             (fun _ _ _ => 35) Sample.env1 Sample.env2 None
             {| db := Sample.db0; broker := Sample.idle |} "alice" Sample.alice).
  - reflexivity.
  - reflexivity.
  - vm_compute. reflexivity.
Defined.

(** X16.  [process_images] on a request the account can pay for (the
    job id drawn being fresh).  The answer is the job response with
    status [queued], the cost as [credits_used] and the debited balance
    as [credits_remaining], which is not negative.  The account is
    debited by the cost and a usage entry is appended.  The job row is
    created under the drawn id with the cost as reserved credits; it is
    [queued] at progress 0 with the task in the queue when the broker
    takes the message, and [failed] with the queueing error, no task
    enqueued and the credits still debited, when it does not. *)
Theorem process_images_admits_and_debits
    (float_str : Q -> string) (credit_costs : gmap string Z)
    (estimate : nat -> string -> gmap string Py.value -> Z)
    (env_tx env_job : call_env) (delay_error : option string)
    (w : World) (user_id : string) (user : User) (rq : request_data) :
  users (db w) !! user_id = Some user ->
  CreditService.calculate_cost float_str credit_costs (rq_operation rq)
    (rq_parameters rq) (Z.of_nat (length (rq_images rq)))
    <= credits_balance user ->
  jobs (db w) !! uuid4 env_job = None ->
  let cost :=
    CreditService.calculate_cost float_str credit_costs (rq_operation rq)
      (rq_parameters rq) (Z.of_nat (length (rq_images rq))) in
  let r :=
    Images.process_images float_str credit_costs estimate env_tx env_job delay_error
      w user_id user rq in
  r.2 = Images.JobResponse (uuid4 env_job) "queued"
          (estimate (length (rq_images rq)) (rq_operation rq) (rq_parameters rq))
          cost (credits_balance user - cost)
          "Job queued successfully for processing" /\
  0 <= credits_balance user - cost /\
  CreditService.get_user_credits (db r.1) user_id = Some (credits_balance user - cost) /\
  (exists usage,
     transactions (db r.1) = transactions (db w) ++ [usage] /\
     transaction_type usage = "usage" /\ amount usage = - cost /\
     tx_user_id usage = user_id) /\
  (exists job,
     jobs (db r.1) !! uuid4 env_job = Some job /\
     job_user_id job = user_id /\
     credits_used job = cost /\
     progress job = 0 /\
     match delay_error with
     | None =>
       status job = "queued" /\
       processing_tasks (broker r.1) =
         processing_tasks (broker w) ++ [(uuid4 env_job, rq)]
     | Some e =>
       status job = "failed" /\
       error_message job = Some ("Failed to queue job: " +:+ e) /\
       processing_tasks (broker r.1) = processing_tasks (broker w)
     end).
Proof.
  intros Hu Hfits Hfresh cost r. subst r. unfold Images.process_images.
  fold cost. fold cost in Hfits.
  rewrite (reserve_unfold env_tx (db w) user_id user cost Hu).
  assert (Hok : (credits_balance user <? cost) = false) by (apply Z.ltb_ge; exact Hfits).
  rewrite Hok. unfold ImageService.create_job. simpl. rewrite Hfresh. simpl.
  rewrite lookup_insert_eq. simpl.
  split; [reflexivity |]. split; [lia |].
  match goal with
  | |- context [ImageService.queue_processing_job ?e ?de ?w0 ?j ?r0] =>
    destruct (queue_processing_job_ledger e de w0 j r0) as [Husers Htx]
  end.
  simpl in Husers, Htx.
  unfold CreditService.get_user_credits. rewrite Husers, Htx, lookup_insert_eq.
  split; [reflexivity |].
  split; [eexists; split; [reflexivity |]; repeat split |].
  unfold ImageService.queue_processing_job.
  destruct delay_error as [e|]; simpl.
  - match goal with
    | |- context [ImageService.update_job_status ?env ?d0 ?j ?st ?p ?err ?outs ?t] =>
      destruct (update_job_status_row env d0 j
                  {| job_user_id := user_id; operation := rq_operation rq;
                     status := "queued"; progress := 0; credits_used := cost;
                     callback_url := rq_callback_url rq; error_message := None;
                     output_images := []; processing_time_seconds := None;
                     job_updated_at := utcnow env_job; started_at := None;
                     completed_at := None |} st p err outs t)
        as (job' & Hj' & Hst & Hp & Hown & _ & Hcr & _ & Herr & _)
    end.
    { simpl. apply lookup_insert_eq. }
    exists job'. split; [exact Hj' |]. split; [exact Hown |]. split; [exact Hcr |].
    split; [exact Hp |]. split; [exact Hst |]. split; [exact Herr | reflexivity].
  - rewrite lookup_insert_eq. eexists. split; [reflexivity |]. simpl.
    repeat split.
Qed.

Lemma process_images_admits_witness :
  (Images.process_images Sample.no_float Settings.credit_costs
     (fun _ _ _ => 35) Sample.env1 Sample.env2 None
     {| db := Sample.db0; broker := Sample.idle |} "alice" Sample.alice
     Sample.request).2
    = Images.JobResponse "tx-2" "queued" 35 2 8 "Job queued successfully for processing".
Proof.
  destruct (process_images_admits_and_debits Sample.no_float Settings.credit_costs
              (fun _ _ _ => 35) Sample.env1 Sample.env2 None
              {| db := Sample.db0; broker := Sample.idle |} "alice" Sample.alice
              Sample.request) as (H & _).
  - reflexivity.
  - vm_compute. discriminate.
  - reflexivity.
  - exact H.
Defined.

(** ** Reading a job *)

(** X17.  What [get_job_status] shows of a job of the caller whose
    status is a value of the enumeration: the stored status and
    progress; the result URLs and the processing time only when the job
    is [completed] and has outputs; the error message only when the job
    is [failed] and the message is not empty.  A stored error is thus
    hidden once the job has another status. *)
Theorem get_job_status_shows
    (is_job_status : string -> bool) (d : Database) (job_id user_id : string)
    (job : ProcessingJob) :
  jobs d !! job_id = Some job ->
  job_user_id job = user_id ->
  is_job_status (status job) = true ->
  exists r,
    Images.get_job_status is_job_status d job_id user_id = Images.StatusOk r /\
    Images.rs_job_id r = job_id /\
    Images.rs_status r = status job /\
    Images.rs_progress r = progress job /\
    (status job = "completed" -> output_images job <> [] ->
       Images.rs_result_urls r = Some (output_images job) /\
       Images.rs_processing_time r = processing_time_seconds job) /\
    (status job <> "completed" \/ output_images job = [] ->
       Images.rs_result_urls r = None /\ Images.rs_processing_time r = None) /\
    (status job = "failed" -> error_message job <> Some "" ->
       Images.rs_error_message r = error_message job) /\
    (status job <> "failed" -> Images.rs_error_message r = None).
Proof.
  intros Hj Hown Hvalid. unfold Images.get_job_status.
  rewrite Hj, <- Hown, String.eqb_refl, Hvalid. simpl.
  eexists. split; [reflexivity |]. simpl.
  split; [reflexivity |]. split; [reflexivity |]. split; [reflexivity |].
  split; [| split; [| split]].
  - intros -> Houts. simpl.
    destruct (output_images job); [contradiction | split; reflexivity].
  - intros [Hst | ->].
    + destruct (String.eqb_spec (status job) "completed");
        [contradiction | split; reflexivity].
    + rewrite andb_false_r. split; reflexivity.
  - intros -> Herr. simpl.
    destruct (error_message job) as [m|]; [| reflexivity]. simpl.
    destruct (String.eqb_spec m ""); [subst; contradiction | reflexivity].
  - intros Hst.
    destruct (String.eqb_spec (status job) "failed"); [contradiction | reflexivity].
Qed.

Lemma get_job_status_shows_witness :
  exists r,
    Images.get_job_status (fun _ => true) (Sample.db_with_job "completed" 100)
      "job-1" "alice" = Images.StatusOk r /\
    Images.rs_progress r = 100.
Proof.
  destruct (get_job_status_shows (fun _ => true) (Sample.db_with_job "completed" 100)
              "job-1" "alice" (Sample.job_with "completed" 100))
    as (r & Hr & _ & _ & Hp & _).
  - reflexivity.
  - reflexivity.
  - reflexivity.
  - exists r. split; [exact Hr | exact Hp].
Defined.

(** X18.  [download_result] serves a file only for a job of the caller
    that is [completed], for an index below the number of its outputs,
    and when the file the path library gives for
    [storage_path / "jobs" / job_id / "output" / "output_<index>.jpg"]
    exists; the file served is that one, as [image/jpeg], under the name
    [processed_image_<index>.jpg]. *)
Theorem download_result_serves_only_outputs
    (storage_path : string) (path_join : list string -> string)
    (file_exists : string -> bool)
    (d : Database) (job_id user_id : string) (image_index : Z)
    (path media_type filename : string) :
  Images.download_result storage_path path_join file_exists d job_id image_index
    user_id = Images.FileResponse path media_type filename ->
  exists job,
    jobs d !! job_id = Some job /\
    job_user_id job = user_id /\
    status job = "completed" /\
    image_index < Z.of_nat (length (output_images job)) /\
    path = path_join [ storage_path; "jobs"; job_id; "output";
                       "output_" +:+ pretty image_index +:+ ".jpg" ] /\
    file_exists path = true /\
    media_type = "image/jpeg" /\
    filename = "processed_image_" +:+ pretty image_index +:+ ".jpg".
Proof.
  unfold Images.download_result.
  destruct (jobs d !! job_id) as [job|]; [| discriminate].
  destruct (String.eqb_spec (job_user_id job) user_id) as [Hown|]; [| discriminate].
  destruct (String.eqb_spec (status job) "completed") as [Hst|]; [| discriminate].
  simpl.
  destruct (negb (truthy_list (output_images job))); [discriminate |]. simpl.
  destruct (image_index >=? Z.of_nat (length (output_images job))) eqn:Hidx;
    [discriminate |].
  destruct (file_exists
              (Images.output_file storage_path path_join job_id image_index))
    eqn:Hfile; [| discriminate].
  intros [= <- <- <-]. exists job.
  rewrite Z.geb_leb in Hidx. apply Z.leb_gt in Hidx.
  repeat split; auto.
Qed.

Lemma download_result_witness :
  exists job,
    jobs {| users := ∅; transactions := [];
            jobs := {[ "job-1" :=
                        {| job_user_id := "alice"; operation := "enhance";
                           status := "completed"; progress := 100;
                           credits_used := 2; callback_url := None;
                           error_message := None;
                           output_images := ["https://files/jobs/job-1/output/output_0.jpg"];
                           processing_time_seconds := None; job_updated_at := 3;
                           started_at := Some 1; completed_at := Some 3 |} ]} |}
      !! "job-1" = Some job /\
    status job = "completed".
Proof.
  destruct (download_result_serves_only_outputs "/app/storage"
              (fun parts => String.concat "/" parts) (fun _ => true)
              {| users := ∅; transactions := [];
                 jobs := {[ "job-1" :=
                             {| job_user_id := "alice"; operation := "enhance";
                                status := "completed"; progress := 100;
                                credits_used := 2; callback_url := None;
                                error_message := None;
                                output_images :=
                                  ["https://files/jobs/job-1/output/output_0.jpg"];
                                processing_time_seconds := None; job_updated_at := 3;
                                started_at := Some 1; completed_at := Some 3 |} ]} |}
              "job-1" "alice" 0
              "/app/storage/jobs/job-1/output/output_0.jpg" "image/jpeg"
              "processed_image_0.jpg") as (job & Hj & _ & Hst & _).
  - vm_compute. reflexivity.
  - exists job. split; [exact Hj | exact Hst].
Defined.

(** ** Worker *)

Section Deliveries.
Variable progress_pct : nat -> nat -> Z.
Implicit Types (d : Database) (env : call_env) (tr : ImageWorker.Transform).

Lemma same_but_job_refl job_id d : same_but_job job_id d d.
Proof. repeat split. Qed.

Lemma same_but_job_trans job_id d1 d2 d3 :
  same_but_job job_id d1 d2 -> same_but_job job_id d2 d3 -> same_but_job job_id d1 d3.
Proof.
  intros (Hu1 & Ht1 & Hj1) (Hu2 & Ht2 & Hj2). repeat split; try congruence.
  intros other Hne. rewrite Hj2, Hj1 by exact Hne. reflexivity.
Qed.

Lemma update_same_but_job env d job_id st p err outs t :
  same_but_job job_id d (ImageService.update_job_status env d job_id st p err outs t).
Proof.
  destruct (update_job_status_ledger env d job_id st p err outs t) as [Hu Ht].
  repeat split; [exact Hu | exact Ht |].
  intros other Hne. apply update_job_status_other, Hne.
Qed.

Lemma process_each_same_but_job tr env job_id op ps total images :
  forall i processed d,
    same_but_job job_id d
      (ImageWorker.process_each progress_pct tr env job_id op ps total i images
         processed d).1.
Proof.
  induction images as [|image rest IH]; intros i processed d; simpl.
  - apply same_but_job_refl.
  - destruct (ImageWorker.process_image tr image op ps) as [img|e]; simpl.
    + eapply same_but_job_trans; [apply update_same_but_job | apply IH].
    + apply same_but_job_refl.
Qed.

Lemma try_block_same_but_job tr env d job_id rd :
  same_but_job job_id d (ImageWorker.try_block progress_pct tr env d job_id rd).1.
Proof.
  unfold ImageWorker.try_block.
  destruct (ImageWorker.load_models tr) as [e|]; simpl; [apply same_but_job_refl |].
  pose proof (process_each_same_but_job tr env job_id (rq_operation rd)
                (rq_parameters rd) (length (rq_images rd)) (rq_images rd) 0 []
                (ImageService.update_job_status env d job_id "processing" (Some 0)
                   None [] None)) as Hloop.
  pose proof (update_same_but_job env d job_id "processing" (Some 0) None [] None)
    as Hfirst.
  destruct (ImageWorker.process_each _ _ _ _ _ _ _ _ _ _ _) as [d1 [imgs|e]];
    simpl in *; [| eapply same_but_job_trans; eassumption].
  destruct (ImageWorker.save_output_images tr job_id imgs) as [urls|e]; simpl;
    [| eapply same_but_job_trans; eassumption].
  eapply same_but_job_trans; [| apply update_same_but_job].
  eapply same_but_job_trans; eassumption.
Qed.

Lemma task_same_but_job self tr env w job_id rd :
  same_but_job job_id (db w)
    (db (ImageWorker.process_images_task progress_pct self tr env w job_id rd).1).
Proof.
  unfold ImageWorker.process_images_task.
  pose proof (try_block_same_but_job tr env (db w) job_id rd) as Htry.
  destruct (ImageWorker.try_block progress_pct tr env (db w) job_id rd)
    as [d1 [[]|e]]; simpl in *.
  - exact Htry.
  - eapply same_but_job_trans; [exact Htry | apply update_same_but_job].
Qed.

(** The job's payload that the progress updates of the loop leave alone. *)
Lemma process_each_success tr env job_id op ps total images :
  forall i processed d job d' out,
    jobs d !! job_id = Some job ->
    ImageWorker.process_each progress_pct tr env job_id op ps total i images
      processed d = (d', inl out) ->
    exists new job',
      out = processed ++ new /\
      Forall2 (fun image o => ImageWorker.process_image tr image op ps = inl o)
        images new /\
      jobs d' !! job_id = Some job' /\
      error_message job' = error_message job /\
      output_images job' = output_images job /\
      processing_time_seconds job' = processing_time_seconds job.
Proof.
  induction images as [|image rest IH]; intros i processed d job d' out Hj; simpl.
  - intros [= <- <-]. exists [], job. rewrite app_nil_r.
    repeat split; [constructor | exact Hj].
  - destruct (ImageWorker.process_image tr image op ps) as [img|e] eqn:Himg;
      [| discriminate].
    intros Hrest.
    destruct (update_job_status_row env d job_id job "processing"
                (Some (progress_pct (i + 1) total)) None [] None Hj)
      as (job1 & Hj1 & _ & _ & _ & _ & _ & _ & He1 & Ho1 & Ht1 & _).
    destruct (IH _ _ _ job1 _ _ Hj1 Hrest)
      as (new & job' & -> & Hall & Hj' & He & Ho & Ht).
    exists (img :: new), job'. rewrite <- app_assoc. simpl in *.
    repeat split.
    + constructor; assumption.
    + exact Hj'.
    + rewrite He. exact He1.
    + rewrite Ho. exact Ho1.
    + rewrite Ht. exact Ht1.
Qed.
End Deliveries.

(** X19.  The worker never touches the credits.  However many times
    [process_images_task] is delivered, and whatever the transform engine
    does at each delivery, the accounts and the ledger are as before (a
    failed job keeps its reservation debited, nothing is refunded or
    charged), and every other job is untouched. *)
Theorem worker_never_touches_the_ledger
    (progress_pct : nat -> nat -> Z) (runs : list (ImageWorker.Transform * call_env))
    (n : nat) (w : World) (job_id : string) (rd : request_data) :
  let w' := ImageWorker.deliveries progress_pct n runs w job_id rd in
  users (db w') = users (db w) /\
  transactions (db w') = transactions (db w) /\
  (forall other, other <> job_id -> jobs (db w') !! other = jobs (db w) !! other).
Proof.
  intros w'. subst w'.
  enough (H : same_but_job job_id (db w)
                (db (ImageWorker.deliveries progress_pct n runs w job_id rd))).
  { exact H. }
  revert n w. induction runs as [|[tr env] runs IH]; intros n w; simpl.
  - apply same_but_job_refl.
  - pose proof (task_same_but_job progress_pct {| ImageWorker.request_retries := n |}
                  tr env w job_id rd) as Hdb.
    destruct (ImageWorker.process_images_task _ _ _ _ _ _ _) as [w1 [|r]];
      simpl in *; [exact Hdb |].
    eapply same_but_job_trans; [exact Hdb | apply IH].
Qed.

(** The row a returning delivery leaves, and what it enqueues. *)
Lemma returned_delivery_row
    (progress_pct : nat -> nat -> Z)
    (self : ImageWorker.TaskSelf) (tr : ImageWorker.Transform) (env : call_env)
    (w : World) (job_id : string) (rd : request_data) (job : ProcessingJob) :
  jobs (db w) !! job_id = Some job ->
  (ImageWorker.process_images_task progress_pct self tr env w job_id rd).2
    = ImageWorker.Returned ->
  let w' := (ImageWorker.process_images_task progress_pct self tr env w job_id rd).1 in
  exists processed urls job',
    ImageWorker.load_models tr = None /\
    Forall2
      (fun image o =>
         ImageWorker.process_image tr image (rq_operation rd) (rq_parameters rd)
           = inl o)
      (rq_images rd) processed /\
    ImageWorker.save_output_images tr job_id processed = inl urls /\
    jobs (db w') !! job_id = Some job' /\
    status job' = "completed" /\
    progress job' = 100 /\
    completed_at job' = Some (utcnow env) /\
    output_images job' = (if truthy_list urls then urls else output_images job) /\
    processing_time_seconds job' =
      (if truthy_float (Some (ImageWorker.elapsed tr))
       then Some (ImageWorker.elapsed tr) else processing_time_seconds job) /\
    error_message job' = error_message job /\
    webhook_tasks (broker w') =
      webhook_tasks (broker w) ++
        ImageWorker.notified job_id (rq_callback_url rd) "completed" /\
    cleanup_tasks (broker w') = cleanup_tasks (broker w) ++ [job_id].
Proof.
  intros Hj. unfold ImageWorker.process_images_task, ImageWorker.try_block.
  destruct (ImageWorker.load_models tr) as [e|] eqn:Hload; [discriminate |].
  destruct (update_job_status_row env (db w) job_id job "processing" (Some 0)
              None [] None Hj)
    as (job0 & Hj0 & _ & _ & _ & _ & _ & _ & He0 & Ho0 & Ht0 & _).
  destruct (ImageWorker.process_each _ _ _ _ _ _ _ _ _ _ _)
    as [d1 [imgs|e]] eqn:Hloop; [| discriminate].
  destruct (process_each_success progress_pct tr env job_id _ _ _ _ _ _ _ job0 _ _
              Hj0 Hloop) as (new & job1 & -> & Hall & Hj1 & He1 & Ho1 & Ht1).
  simpl in *.
  destruct (ImageWorker.save_output_images tr job_id new) as [urls|e] eqn:Hsave;
    [| discriminate].
  intros _. simpl.
  destruct (update_job_status_row env d1 job_id job1 "completed" (Some 100) None
              urls (Some (ImageWorker.elapsed tr)) Hj1)
    as (job' & Hj' & Hst & Hp & _ & _ & _ & _ & He & Ho & Ht & _ & _ & Hc).
  exists new, urls, job'.
  split; [reflexivity |]. split; [exact Hall |]. split; [exact Hsave |].
  split; [exact Hj' |]. split; [exact Hst |]. split; [exact Hp |].
  split; [exact Hc |].
  split; [rewrite Ho; destruct (truthy_list urls); congruence |].
  split; [rewrite Ht; simpl; destruct (Qeq_bool _ _); simpl; congruence |].
  split; [rewrite He; simpl; congruence |].
  rewrite notify_appends. split; [reflexivity |].
  unfold ImageWorker.notify.
  destruct (rq_callback_url rd) as [u|]; [destruct (String.eqb u "") |];
    reflexivity.
Qed.

(** X20.  A delivery that returns, on a job that exists.  The model
    loader did not raise, every image was transformed, in order, and the
    outputs were saved.  The job is [completed] at progress 100 with
    [completed_at] stamped; it carries the saved URLs (the stored ones
    when the list is empty) and the measured time (the stored one when it
    is zero); an error message stored by an earlier failed attempt is
    still there.  One [completed] webhook is enqueued when the request
    has a non-empty callback URL, and one cleanup task in any case. *)
Theorem returned_delivery_completes_the_job
    (progress_pct : nat -> nat -> Z)
    (self : ImageWorker.TaskSelf) (tr : ImageWorker.Transform) (env : call_env)
    (w : World) (job_id : string) (rd : request_data) (job : ProcessingJob) :
  jobs (db w) !! job_id = Some job ->
  (ImageWorker.process_images_task progress_pct self tr env w job_id rd).2
    = ImageWorker.Returned ->
  let w' := (ImageWorker.process_images_task progress_pct self tr env w job_id rd).1 in
  exists processed urls job',
    ImageWorker.load_models tr = None /\
    Forall2
      (fun image o =>
         ImageWorker.process_image tr image (rq_operation rd) (rq_parameters rd)
           = inl o)
      (rq_images rd) processed /\
    ImageWorker.save_output_images tr job_id processed = inl urls /\
    jobs (db w') !! job_id = Some job' /\
    status job' = "completed" /\
    progress job' = 100 /\
    completed_at job' = Some (utcnow env) /\
    output_images job' = (if truthy_list urls then urls else output_images job) /\
    processing_time_seconds job' =
      (if truthy_float (Some (ImageWorker.elapsed tr))
       then Some (ImageWorker.elapsed tr) else processing_time_seconds job) /\
    error_message job' = error_message job /\
    webhook_tasks (broker w') =
      webhook_tasks (broker w) ++
        ImageWorker.notified job_id (rq_callback_url rd) "completed" /\
    cleanup_tasks (broker w') = cleanup_tasks (broker w) ++ [job_id].
Proof.
  exact (returned_delivery_row progress_pct self tr env w job_id rd job).
Qed.

Lemma returned_delivery_witness :
  exists job',
    jobs (db (ImageWorker.process_images_task Sample.pct
                {| ImageWorker.request_retries := 0 |} Sample.working Sample.env1
                {| db := Sample.db_with_job "queued" 0; broker := Sample.idle |}
                "job-1" Sample.request).1) !! "job-1" = Some job' /\
    status job' = "completed" /\
    progress job' = 100.
Proof.
  destruct (returned_delivery_completes_the_job Sample.pct
              {| ImageWorker.request_retries := 0 |} Sample.working Sample.env1
              {| db := Sample.db_with_job "queued" 0; broker := Sample.idle |}
              "job-1" Sample.request (Sample.job_with "queued" 0))
    as (processed & urls & job' & _ & _ & _ & Hj & Hst & Hp & _).
  - reflexivity.
  - reflexivity.
  - exists job'. split; [exact Hj |]. split; [exact Hst | exact Hp].
Defined.

(** X21.  Failed deliveries are not told apart.  When every one of a
    series of deliveries fails (the transform engine raises whatever the
    session holds), on a job that exists, each delivery enqueues its own
    [failed] webhook, so the callback URL is notified as many times as
    there were deliveries; no cleanup is scheduled; and after at least
    one delivery the job is [failed]. *)
Theorem failing_deliveries_notify_each_time
    (progress_pct : nat -> nat -> Z) (runs : list (ImageWorker.Transform * call_env))
    (n : nat) (w : World) (job_id : string) (rd : request_data) :
  is_Some (jobs (db w) !! job_id) ->
  Forall
    (fun run =>
       forall d, exists e,
         (ImageWorker.try_block progress_pct run.1 run.2 d job_id rd).2 = inr e)
    runs ->
  let w' := ImageWorker.deliveries progress_pct n runs w job_id rd in
  webhook_tasks (broker w') =
    webhook_tasks (broker w) ++
      mjoin (replicate (length runs)
               (ImageWorker.notified job_id (rq_callback_url rd) "failed")) /\
  cleanup_tasks (broker w') = cleanup_tasks (broker w) /\
  (runs <> [] ->
     exists job', jobs (db w') !! job_id = Some job' /\ status job' = "failed").
Proof.
  intros Hj Hall w'. subst w'. revert n w Hj.
  induction Hall as [|[tr env] runs Hfail Hall IH]; intros n w Hj; simpl.
  - rewrite app_nil_r. split; [reflexivity |]. split; [reflexivity |].
    intros Hne. contradiction.
  - simpl in Hfail. destruct (Hfail (db w)) as [e He].
    pose proof (failed_delivery progress_pct {| ImageWorker.request_retries := n |}
                  tr env w job_id rd) as Hone.
    assert (Hcleanup :
      cleanup_tasks
        (broker (ImageWorker.process_images_task progress_pct
                   {| ImageWorker.request_retries := n |} tr env w job_id rd).1)
        = cleanup_tasks (broker w)).
    { unfold ImageWorker.process_images_task.
      destruct (ImageWorker.try_block progress_pct tr env (db w) job_id rd)
        as [d1 [[]|e1]]; [discriminate |]. simpl. unfold ImageWorker.notify.
      destruct (rq_callback_url rd) as [u|]; [destruct (String.eqb u "") |];
        reflexivity. }
    assert (Hraised : exists r,
      (ImageWorker.process_images_task progress_pct
         {| ImageWorker.request_retries := n |} tr env w job_id rd).2
        = ImageWorker.Raised r).
    { unfold ImageWorker.process_images_task.
      destruct (ImageWorker.try_block progress_pct tr env (db w) job_id rd)
        as [d1 [[]|e1]]; [discriminate |]. simpl. eauto. }
    destruct Hraised as [r Hr].
    destruct (Hone r Hj Hr) as ((job1 & Hj1 & Hst1 & _) & Hhooks & _).
    destruct (ImageWorker.process_images_task _ _ _ _ _ _ _) as [w1 res].
    simpl in *. subst res.
    destruct (IH (S n) w1 (ex_intro _ job1 Hj1)) as (IHhooks & IHclean & IHjob).
    split; [rewrite IHhooks, Hhooks, app_assoc; reflexivity |].
    split; [rewrite IHclean; exact Hcleanup |].
    intros _. destruct runs as [|run runs'].
    + simpl. exists job1. split; assumption.
    + apply IHjob. discriminate.
Qed.

Lemma failing_deliveries_witness :
  length
    (webhook_tasks
       (broker
          (ImageWorker.deliveries Sample.pct 0
             [ (Sample.broken, Sample.env1); (Sample.broken, Sample.env2) ]
             {| db := Sample.db_with_job "queued" 0; broker := Sample.idle |}
             "job-1" Sample.request))) = 2%nat.
Proof.
  destruct (failing_deliveries_notify_each_time Sample.pct
              [ (Sample.broken, Sample.env1); (Sample.broken, Sample.env2) ] 0
              {| db := Sample.db_with_job "queued" 0; broker := Sample.idle |}
              "job-1" Sample.request) as (H & _).
  - exists (Sample.job_with "queued" 0). reflexivity.
  - repeat constructor; intros d; eexists; reflexivity.
  - rewrite H. reflexivity.
Defined.

(** X24.  Cancelling does not stop the work.  [cancel_job] only rewrites
    the job row; it has no hand on the broker.  When a cancellation has
    been confirmed and the task is delivered all the same, a delivery that
    returns leaves the job [completed] at progress 100, not [cancelled]. *)
Theorem cancelled_job_is_still_processed
    (progress_pct : nat -> nat -> Z)
    (self : ImageWorker.TaskSelf) (tr : ImageWorker.Transform)
    (env env' : call_env) (d : Database) (b : Broker)
    (job_id user_id : string) (rd : request_data) :
  (Images.cancel_job env d job_id user_id).2
    = Images.Cancelled "Job cancelled successfully" job_id ->
  let w := {| db := (Images.cancel_job env d job_id user_id).1; broker := b |} in
  (ImageWorker.process_images_task progress_pct self tr env' w job_id rd).2
    = ImageWorker.Returned ->
  status <$> jobs (db w) !! job_id = Some "cancelled" /\
  exists job',
    jobs (db (ImageWorker.process_images_task progress_pct self tr env' w job_id rd).1)
      !! job_id = Some job' /\
    status job' = "completed" /\
    progress job' = 100.
Proof.
  intros Hcancel w Hret.
  assert (Hrow : exists job1,
            jobs (db w) !! job_id = Some job1 /\ status job1 = "cancelled").
  { subst w. simpl. revert Hcancel. unfold Images.cancel_job.
    destruct (jobs d !! job_id) as [job|]; [| discriminate].
    destruct (negb (String.eqb (job_user_id job) user_id)); [discriminate |].
    destruct (Images.not_cancellable (status job)); [discriminate |].
    simpl. intros _. rewrite lookup_insert_eq. eexists. split; reflexivity. }
  destruct Hrow as (job1 & Hj1 & Hst1).
  split; [rewrite Hj1; simpl; rewrite Hst1; reflexivity |].
  destruct (returned_delivery_row progress_pct self tr env' w job_id rd job1 Hj1 Hret)
    as (_ & _ & job' & _ & _ & _ & Hj' & Hst & Hp & _).
  exists job'. split; [exact Hj' |]. split; [exact Hst | exact Hp].
Qed.

Lemma cancelled_job_is_still_processed_witness :
  exists job',
    jobs (db (ImageWorker.process_images_task Sample.pct
                {| ImageWorker.request_retries := 0 |} Sample.working Sample.env2
                {| db := (Images.cancel_job Sample.env1
                            (Sample.db_with_job "queued" 0) "job-1" "alice").1;
                   broker := Sample.idle |}
                "job-1" Sample.request).1) !! "job-1" = Some job' /\
    status job' = "completed" /\
    progress job' = 100.
Proof.
  destruct (cancelled_job_is_still_processed Sample.pct
              {| ImageWorker.request_retries := 0 |} Sample.working
              Sample.env1 Sample.env2 (Sample.db_with_job "queued" 0) Sample.idle
              "job-1" "alice" Sample.request) as (_ & H).
  - reflexivity.
  - reflexivity.
  - exact H.
Defined.

(** ** Cost estimation, continued *)

(** X22.  The cost is linear in the number of images, whatever the price
    table: the cost of [n] images is [n] times the cost of one image with
    the same operation and parameters (the fallback included), and no
    images cost nothing. *)
Theorem calculate_cost_is_linear
    (float_str : Q -> string) (credit_costs : gmap string Z)
    (op : string) (ps : gmap string Py.value) (n : Z) :
  CreditService.calculate_cost float_str credit_costs op ps n =
    n * CreditService.calculate_cost float_str credit_costs op ps 1 /\
  CreditService.calculate_cost float_str credit_costs op ps 0 = 0.
Proof.
  unfold CreditService.calculate_cost, CreditService.calculate_cost_body.
  destruct (Py.gt_int (Py.get ps "steps" (Py.VInt 20)) 50) as [hs|];
    [| split; lia].
  destruct (Py.gt_int (Py.get ps "guidance_scale" (Py.VFloat (15 # 2))) 15) as [hg|];
    split; lia.
Qed.

Lemma shipped_prices_bounded :
  forall key c, Settings.credit_costs !! key = Some c -> 1 <= c <= 4.
Proof.
  intros key c. unfold Settings.credit_costs. simpl.
  rewrite !lookup_insert. repeat case_decide; rewrite ?lookup_empty;
    intros [= <-]; lia.
Qed.

(** X23.  With the shipped price table no image costs more than 7
    credits, whatever the operation and the parameters: the total lies
    between [n] and [7 * n] for [n] images.  The dearest case is
    four-fold upscaling with more than 50 steps and a guidance scale
    above 15: 4, then 6, then 7 credits per image. *)
Theorem shipped_cost_per_image_is_bounded
    (float_str : Q -> string) (op : string) (ps : gmap string Py.value) (n : nat) :
  Z.of_nat n
    <= CreditService.calculate_cost float_str Settings.credit_costs op ps (Z.of_nat n)
    <= 7 * Z.of_nat n.
Proof.
  unfold CreditService.calculate_cost, CreditService.calculate_cost_body.
  set (base :=
         if String.eqb op "enhance" then _
         else if String.eqb op "upscale" then _ else 1).
  assert (Hbase : 1 <= base <= 4).
  { assert (Hcost : forall key, 1 <= CreditService.cost_of Settings.credit_costs key <= 4).
    { intros key. unfold CreditService.cost_of.
      destruct (Settings.credit_costs !! key) as [c|] eqn:Hk;
        [exact (shipped_prices_bounded _ _ Hk) | lia]. }
    subst base. destruct (String.eqb op "enhance"); [apply Hcost |].
    destruct (String.eqb op "upscale"); [apply Hcost | lia]. }
  destruct (Py.gt_int (Py.get ps "steps" (Py.VInt 20)) 50) as [hs|]; [| lia].
  destruct (Py.gt_int (Py.get ps "guidance_scale" (Py.VFloat (15 # 2))) 15) as [hg|];
    [| lia].
  set (s1 := if hs then Py.int_times_1_5 base else base).
  assert (Hs1 : 1 <= s1 <= 6).
  { subst s1. destruct hs; [| lia].
    rewrite int_times_1_5_floor by lia. split.
    - apply Z.div_le_lower_bound; lia.
    - apply Z.div_le_upper_bound; lia. }
  set (s2 := if hg then Py.int_times_1_2 s1 else s1).
  assert (Hs2 : 1 <= s2 <= 7).
  { subst s2. destruct hg; [| lia].
    rewrite int_times_1_2_floor by lia. split.
    - apply Z.div_le_lower_bound; lia.
    - assert (s1 * 6 / 5 < 8) by (apply Z.div_lt_upper_bound; lia). lia. }
  nia.
Qed.

Example dearest_image_costs_seven :
  CreditService.calculate_cost Sample.no_float Settings.credit_costs "upscale"
    (<["upscale_factor" := Py.VInt 4]>
       (<["steps" := Py.VInt 60]> {[ "guidance_scale" := Py.VInt 20 ]})) 1 = 7.
Proof. vm_compute. reflexivity. Qed.
